(** * Verification of the filter, cache, grouping and update logic of MakeItFast

    Shallow embedding of
    - [src/src/hooks/useOptimizedFilters.ts]   (DistanceCache, filter and sort pipeline)
    - [src/src/services/stationService.ts]     (groupStationsByCoordinates)
    - [src/src/components/Map.tsx]             (getStationIcon)
    - [src/src/components/OptimizedFMStationClient.tsx] (handleUpdateStation)
    - [src/src/app/api/stations/[id]/route.ts] (the two PATCH handlers)

    JavaScript numbers are modelled by their shortest decimal representation
    [mant * 10^exp], the digits that [Number.prototype.toString] prints.
    [toFixed] is computed on that decimal value; it agrees with JavaScript
    except when the decimal lies exactly half way between two 4-place values
    (the binary double then sits on one side of the tie). Distances are
    computed over the real numbers. Strings are [String.string]; the
    lowercasing of [toLowerCase] is the ASCII one (Thai has no case). *)

From Stdlib Require Import String Ascii List Bool ZArith Lia.
From Stdlib Require Import Reals Lra Psatz.
From Stdlib Require Import Sorting.Permutation Sorting.Sorted.
Import ListNotations.
Open Scope string_scope.
Open Scope Z_scope.

(* ------------------------------------------------------------------ *)
(** ** JavaScript numbers and their string conversions *)

Module JSNum.

(** A finite JavaScript number given by its shortest decimal form. *)
Record num := mkNum { mant : Z; exp : Z }.

Definition digit (d : Z) : ascii := ascii_of_nat (48 + Z.to_nat d).

(** Decimal digits of a non-negative integer, most significant first. *)
Fixpoint digits_fuel (fuel : nat) (n : Z) (acc : string) : string :=
  match fuel with
  | O => String (digit n) acc
  | S f =>
      if n <? 10 then String (digit n) acc
      else digits_fuel f (n / 10) (String (digit (n mod 10)) acc)
  end.

Definition digits (n : Z) : string :=
  digits_fuel (S (Z.to_nat (Z.log2 n))) n "".

Fixpoint zeros (k : nat) : string :=
  match k with O => "" | S k' => String "0" (zeros k') end.

(** Strip trailing zeros of the mantissa (normal form of the decimal). *)
Fixpoint normalize_fuel (fuel : nat) (m e : Z) : Z * Z :=
  match fuel with
  | O => (m, e)
  | S f =>
      if (m =? 0) then (0, 0)
      else if (m mod 10 =? 0) then normalize_fuel f (m / 10) (e + 1)
      else (m, e)
  end.

Definition normalize (x : num) : Z * Z :=
  normalize_fuel (S (Z.to_nat (Z.log2 (Z.abs (mant x))))) (mant x) (exp x).

(** [Number::toString(x)] (ECMA-262, 6.1.6.1.20) for a finite [x] whose
    shortest decimal form is [s * 10^(n-k)], [k] the digit count of [s]. *)
Definition toString_pos (s e : Z) : string :=
  let ds := digits s in
  let k := Z.of_nat (String.length ds) in
  let n := k + e in
  let expo (d : Z) :=
    (if d <? 0 then "-" else "+") ++ digits (Z.abs d) in
  if (k <=? n) && (n <=? 21) then ds ++ zeros (Z.to_nat (n - k))
  else if (0 <? n) && (n <=? 21) then
    substring 0 (Z.to_nat n) ds ++ "." ++ substring (Z.to_nat n) (Z.to_nat (k - n)) ds
  else if (-6 <? n) && (n <=? 0) then
    "0." ++ zeros (Z.to_nat (- n)) ++ ds
  else if k =? 1 then ds ++ "e" ++ expo (n - 1)
  else substring 0 1 ds ++ "." ++ substring 1 (Z.to_nat (k - 1)) ds ++ "e" ++ expo (n - 1).

Definition toString (x : num) : string :=
  let '(m, e) := normalize x in
  if m =? 0 then "0"
  else if m <? 0 then "-" ++ toString_pos (- m) e
  else toString_pos m e.

(** [Number.prototype.toFixed(4)] (ECMA-262, 21.1.3.3): for [|x| < 10^21],
    [n] is the integer nearest to [|x| * 10^4], the larger one on a tie. *)
Definition fixed_int4 (m e : Z) : Z :=
  let m := Z.abs m in
  if 0 <=? e + 4 then m * 10 ^ (e + 4)
  else let d := 10 ^ (- (e + 4)) in (2 * m + d) / (2 * d).

Definition ge_1e21 (x : num) : bool :=
  let m := Z.abs (mant x) in
  if 0 <=? exp x then 10 ^ 21 <=? m * 10 ^ exp x
  else 10 ^ 21 * 10 ^ (- exp x) <=? m.

Definition toFixed4 (x : num) : string :=
  if ge_1e21 x then toString x
  else
    let s := if mant x <? 0 then "-" else "" in
    let n := fixed_int4 (mant x) (exp x) in
    let m := digits n in
    let m := if (String.length m <=? 4)%nat
             then zeros (5 - String.length m)%nat ++ m else m in
    let k := String.length m in
    s ++ substring 0 (k - 4)%nat m ++ "." ++ substring (k - 4)%nat 4 m.

(** The exact value of the number, for the arithmetic of the distance. *)
Definition toR (x : num) : R := (IZR (mant x) * powerRZ 10 (exp x))%R.

End JSNum.

Import JSNum.

(* ------------------------------------------------------------------ *)
(** ** JavaScript [Map] with string keys, in insertion order *)

Module JSMap.
Section Ops.
Context {V : Type}.

(** A [Map<string, V>]: its entries, oldest first. *)
Definition t := list (string * V).

Definition has (k : string) (m : t) : bool :=
  existsb (fun e => String.eqb (fst e) k) m.

Fixpoint get (k : string) (m : t) : option V :=
  match m with
  | [] => None
  | (k', v) :: m' => if String.eqb k' k then Some v else get k m'
  end.

(** [set] replaces the value of a present key in place, and appends a new
    key at the end of the insertion order. *)
Fixpoint replace (k : string) (v : V) (m : t) : t :=
  match m with
  | [] => []
  | (k', v') :: m' => if String.eqb k' k then (k', v) :: m' else (k', v') :: replace k v m'
  end.

Definition set (k : string) (v : V) (m : t) : t :=
  if has k m then replace k v m else (m ++ [(k, v)])%list.

Definition size (m : t) : nat := length m.

(** [Array.prototype.slice(-n)]: the last [n] elements. *)
Definition slice_neg {A} (n : nat) (l : list A) : list A :=
  skipn (length l - n) l.

(** [m.clear(); entries.forEach(([k, v]) => m.set(k, v))]. *)
Definition rebuild (entries : t) : t :=
  fold_left (fun acc e => set (fst e) (snd e) acc) entries [].

End Ops.
End JSMap.

(* ------------------------------------------------------------------ *)
(** ** DistanceCache (useOptimizedFilters.ts, lines 11-61) *)

(** The Haversine formula of [getDistance], lines 37-45, over the reals.
    [Math.atan2] for the arguments it receives here. *)
Definition atan2 (y x : R) : R :=
  if Rlt_dec 0 x then atan (y / x)
  else if Rlt_dec x 0 then
    (if Rle_dec 0 y then atan (y / x) + PI else atan (y / x) - PI)%R
  else if Rlt_dec 0 y then (PI / 2)%R
  else if Rlt_dec y 0 then (- (PI / 2))%R
  else 0%R.

Definition haversine (lat1 lon1 lat2 lon2 : R) : R :=
  let R0 := 6371%R in
  let dLat := ((lat2 - lat1) * PI / 180)%R in
  let dLon := ((lon2 - lon1) * PI / 180)%R in
  let a := (sin (dLat / 2) * sin (dLat / 2) +
            cos (lat1 * PI / 180) * cos (lat2 * PI / 180) *
            sin (dLon / 2) * sin (dLon / 2))%R in
  let c := (2 * atan2 (sqrt a) (sqrt (1 - a)))%R in
  (R0 * c)%R.

Module DistanceCache.

Definition maxCacheSize : nat := 1000.

Definition getCacheKey (lat1 lon1 lat2 lon2 : num) : string :=
  toFixed4 lat1 ++ "," ++ toFixed4 lon1 ++ "-" ++ toFixed4 lat2 ++ "," ++ toFixed4 lon2.

(** One call of [getDistance], generic in the value computed on a miss so
    that the bookkeeping of the cache can be evaluated by itself. *)
Section Generic.
Context {V : Type} (compute : num -> num -> num -> num -> V).

Definition getDistance_with (cache : @JSMap.t V) (lat1 lon1 lat2 lon2 : num)
  : V * @JSMap.t V :=
  let key := getCacheKey lat1 lon1 lat2 lon2 in
  (* [cache.has(key)] and [cache.get(key)!] read the same entry *)
  match JSMap.get key cache with
  | Some v => (v, cache)
  | None =>
      let cache :=
        if (maxCacheSize <? JSMap.size cache)%nat
        then JSMap.rebuild (JSMap.slice_neg (maxCacheSize / 2) cache)
        else cache in
      let distance := compute lat1 lon1 lat2 lon2 in
      (distance, JSMap.set key distance cache)
  end.

(** A sequence of calls, threading the cache. *)
Fixpoint run_with (cache : @JSMap.t V) (calls : list (num * num * num * num))
  : list V * @JSMap.t V :=
  match calls with
  | [] => ([], cache)
  | (a, b, c, d) :: rest =>
      let '(v, cache1) := getDistance_with cache a b c d in
      let '(vs, cache2) := run_with cache1 rest in
      (v :: vs, cache2)
  end.

End Generic.

Definition hav_num (lat1 lon1 lat2 lon2 : num) : R :=
  haversine (toR lat1) (toR lon1) (toR lat2) (toR lon2).

(** The cache of the program stores the real distances. *)
Definition cache := @JSMap.t R.
Definition empty : cache := [].

Definition getDistance := getDistance_with hav_num.
Definition run := run_with hav_num.

Record stats := { size : nat; maxSize : nat }.
Definition getStats (c : cache) : stats :=
  {| size := JSMap.size c; maxSize := maxCacheSize |}.

End DistanceCache.

(* ------------------------------------------------------------------ *)
(** ** Stations and filters (types/station.ts) *)

Module Station.

(** [id: string | number], compared with [===]. *)
Inductive station_id := IdNum (n : Z) | IdStr (s : string).

Definition id_eqb (a b : station_id) : bool :=
  match a, b with
  | IdNum x, IdNum y => Z.eqb x y
  | IdStr x, IdStr y => String.eqb x y
  | _, _ => false
  end.

(** The fields of [FMStation] that the modelled code reads or writes;
    optional fields are [option] ([None] is [undefined]). *)
Record station := mkStation {
  id : station_id;
  name : string;
  frequency : num;
  latitude : num;
  longitude : num;
  city : string;
  state : string;
  genre : string;
  description : option string;
  inspection68 : option string;
  dateInspected : option string;
  details : option string;
  onAir : option bool;
  unwanted : option bool;
  submitRequest : option string
}.


(** [FilterType]; a string option is unset when [undefined] or empty. *)
Record filterType := {
  f_onAir : option bool;
  f_city : option string;
  f_province : option string;
  f_inspection : option string;
  f_search : option string;
  f_submitRequest : option string
}.

Definition NOT_SUBMITTED : string := "ไม่ยื่น".
Definition INSPECTED : string := "ตรวจแล้ว".
Definition NOT_INSPECTED : string := "ยังไม่ตรวจ".

End Station.

Import Station.

(* ------------------------------------------------------------------ *)
(** ** JavaScript string helpers *)

Module JSString.

(** [String.prototype.toLowerCase] on ASCII letters. *)
Definition lower_ascii (c : ascii) : ascii :=
  let n := nat_of_ascii c in
  if (65 <=? n)%nat && (n <=? 90)%nat then ascii_of_nat (n + 32) else c.

Fixpoint toLowerCase (s : string) : string :=
  match s with
  | EmptyString => EmptyString
  | String c s' => String (lower_ascii c) (toLowerCase s')
  end.

(** [s.includes(pat)]. *)
Fixpoint includes (s pat : string) : bool :=
  String.prefix pat s ||
  match s with EmptyString => false | String _ s' => includes s' pat end.

(** [s.startsWith(pat)]. *)
Definition startsWith (s pat : string) : bool := String.prefix pat s.

(** Truthiness of an optional string. *)
Definition truthy (o : option string) : bool :=
  match o with Some s => negb (String.eqb s "") | None => false end.

(** [x?.toLowerCase().includes(q)] is falsy when [x] is undefined. *)
Definition opt_includes (o : option string) (q : string) : bool :=
  match o with Some x => includes (toLowerCase x) q | None => false end.

End JSString.

Import JSString.

(* ------------------------------------------------------------------ *)
(** ** The filter predicates and pipeline (useOptimizedFilters.ts, 80-160) *)

Module Filters.

Definition onAir_pred (f : filterType) : option (station -> bool) :=
  match f_onAir f with
  | Some b => Some (fun s => match onAir s with Some b' => Bool.eqb b' b | None => false end)
  | None => None
  end.

Definition city_pred (f : filterType) : option (station -> bool) :=
  if truthy (f_city f) then
    Some (fun s => match f_city f with Some c => String.eqb (city s) c | None => false end)
  else None.

Definition province_pred (f : filterType) : option (station -> bool) :=
  if truthy (f_province f) then
    Some (fun s => match f_province f with Some p => String.eqb (state s) p | None => false end)
  else None.

Definition inspection_pred (f : filterType) : option (station -> bool) :=
  if truthy (f_inspection f) then
    Some (fun s => match inspection68 s, f_inspection f with
                   | Some a, Some b => String.eqb a b
                   | _, _ => false
                   end)
  else None.

Definition submitRequest_pred (f : filterType) : option (station -> bool) :=
  match f_submitRequest f with
  | Some v =>
      if String.eqb v NOT_SUBMITTED then
        Some (fun s => match submitRequest s with
                       | Some w => String.eqb w NOT_SUBMITTED
                       | None => false
                       end)
      else None
  | None => None
  end.

(** Lines 102-119. *)
Definition search_match (search : string) (s : station) : bool :=
  let searchLower := toLowerCase search in
  let searchTerm := search in
  includes (toLowerCase (name s)) searchLower ||
  opt_includes (description s) searchLower ||
  includes (toLowerCase (genre s)) searchLower ||
  includes (toLowerCase (city s)) searchLower ||
  includes (toLowerCase (state s)) searchLower ||
  opt_includes (details s) searchLower ||
  includes (toString (frequency s)) searchTerm ||
  (startsWith searchLower "#" && opt_includes (details s) searchLower) ||
  (negb (startsWith searchLower "#") && opt_includes (details s) ("#" ++ searchLower)).

Definition search_pred (f : filterType) : option (station -> bool) :=
  if truthy (f_search f) then
    match f_search f with Some q => Some (search_match q) | None => None end
  else None.

Definition apply_opt (p : option (station -> bool)) (l : list station) : list station :=
  match p with Some q => filter q l | None => l end.

Definition filteredStations (f : filterType) (stations : list station) : list station :=
  match stations with
  | [] => []
  | _ =>
      apply_opt (search_pred f)
        (apply_opt (submitRequest_pred f)
          (apply_opt (onAir_pred f)
            (apply_opt (inspection_pred f)
              (apply_opt (province_pred f)
                (apply_opt (city_pred f) stations)))))
  end.

(** The same filter state with [submitRequest] unset. *)
Definition clear_submitRequest (f : filterType) : filterType :=
  {| f_onAir := f_onAir f; f_city := f_city f; f_province := f_province f;
     f_inspection := f_inspection f; f_search := f_search f; f_submitRequest := None |}.

Definition is_not_submitted (s : station) : bool :=
  match submitRequest s with Some w => String.eqb w NOT_SUBMITTED | None => false end.

End Filters.

(* ------------------------------------------------------------------ *)
(** ** The distance sort (useOptimizedFilters.ts, lines 163-188) *)

Module DistanceSort.
Import DistanceCache Filters.









End DistanceSort.

(* ------------------------------------------------------------------ *)
(** ** groupStationsByCoordinates (stationService.ts, lines 297-311) *)

Module Grouping.

(** [`${station.latitude},${station.longitude}`]. *)
Definition coordKey (s : station) : string :=
  toString (latitude s) ++ "," ++ toString (longitude s).

(** One step of the [forEach]: [get(k)!.push(station)] mutates the array
    held by the map, i.e. replaces the group in place. *)
Definition add_station (m : @JSMap.t (list station)) (s : station) : @JSMap.t (list station) :=
  let k := coordKey s in
  if JSMap.has k m then
    match JSMap.get k m with
    | Some g => JSMap.replace k (g ++ [s])%list m
    | None => m
    end
  else JSMap.set k [s] m.

Definition groupStationsByCoordinates (stations : list station) : @JSMap.t (list station) :=
  fold_left add_station stations [].

End Grouping.

(* ------------------------------------------------------------------ *)
(** ** getStationIcon (Map.tsx, lines 206-226) *)

Module MapIcon.

Inductive icon := blackStationIcon | greyStationIcon | greenStationIcon | redStationIcon.

Definition getStationIcon (s : station) : icon :=
  if match submitRequest s with Some w => String.eqb w NOT_SUBMITTED | None => false end
  then blackStationIcon
  else if negb (match onAir s with Some b => b | None => false end) then greyStationIcon
  else if match inspection68 s with Some w => String.eqb w INSPECTED | None => false end
  then greenStationIcon
  else if match inspection68 s with Some w => String.eqb w NOT_INSPECTED | None => false end
  then redStationIcon
  else redStationIcon.

(** The precedence as C9 words it, off-air meaning [onAir] false. *)
Definition spec_icon_category (s : station) : icon :=
  if match submitRequest s with Some w => String.eqb w NOT_SUBMITTED | None => false end
  then blackStationIcon
  else if match onAir s with Some false => true | _ => false end then greyStationIcon
  else if match inspection68 s with Some w => String.eqb w INSPECTED | None => false end
  then greenStationIcon
  else redStationIcon.

End MapIcon.

(* ------------------------------------------------------------------ *)
(** ** The PATCH handlers of /api/stations/[id] (route.ts) *)

Module Route.

Local Set Warnings "-register-all".

(** A value produced by [request.json()]. *)
Inductive json :=
| JNull
| JBool (b : bool)
| JNum (n : num)
| JStr (s : string)
| JArr (l : list json)
| JObj (fields : list (string * json)).

(** [body.k] on a non-null value: the last binding of [k] in an object
    ([JSON.parse] keeps the last duplicate), [undefined] otherwise. *)
Definition get_field (b : json) (k : string) : option json :=
  match b with
  | JObj fs => fold_left (fun acc e => if String.eqb (fst e) k then Some (snd e) else acc) fs None
  | _ => None
  end.

(** [parseInt(id)] with radix 10 (or 16 after [0x]); [None] is [NaN].
    Strings are UTF-8 byte strings, so a white-space code point of
    TrimString is the byte sequence of its UTF-8 encoding. *)
Definition is_space (c : ascii) : bool :=
  let n := nat_of_ascii c in
  (n =? 32)%nat || ((9 <=? n)%nat && (n <=? 13)%nat).

(** The non-ASCII WhiteSpace and LineTerminator code points in UTF-8:
    U+00A0, U+1680, U+2000..U+200A, U+2028, U+2029, U+202F, U+205F,
    U+3000, U+FEFF. *)
Definition wide_spaces : list (list nat) :=
  ([[194; 160]; [225; 154; 128]] ++
   map (fun b => [226; 128; b]) (seq 128 11) ++
   [[226; 128; 168]; [226; 128; 169]; [226; 128; 175]; [226; 129; 159];
    [227; 128; 128]; [239; 187; 191]])%list%nat.

(** [s] without the bytes [p] in front, if it starts with them. *)
Fixpoint strip_bytes (p : list nat) (s : string) : option string :=
  match p, s with
  | [], _ => Some s
  | b :: p', String c s' => if (nat_of_ascii c =? b)%nat then strip_bytes p' s' else None
  | _ :: _, EmptyString => None
  end.

Fixpoint first_strip (ps : list (list nat)) (s : string) : option string :=
  match ps with
  | [] => None
  | p :: ps' => match strip_bytes p s with Some r => Some r | None => first_strip ps' s end
  end.

(** [s] without its first code point, if that one is white space. *)
Definition space_rest (s : string) : option string :=
  match s with
  | String c s' => if is_space c then Some s' else first_strip wide_spaces s
  | EmptyString => None
  end.

(** Each step drops at least one byte, so [String.length s] steps are
    enough to drop all the leading white space. *)
Fixpoint trim_fuel (fuel : nat) (s : string) : string :=
  match fuel with
  | O => s
  | S f => match space_rest s with Some r => trim_fuel f r | None => s end
  end.

Definition trim_left (s : string) : string := trim_fuel (String.length s) s.

Definition digit_value (c : ascii) : Z :=
  let n := Z.of_nat (nat_of_ascii c) in
  if (48 <=? n) && (n <=? 57) then n - 48
  else if (97 <=? n) && (n <=? 122) then n - 87
  else if (65 <=? n) && (n <=? 90) then n - 55
  else 99.

Fixpoint parse_digits (radix : Z) (s : string) (acc : option Z) : option Z :=
  match s with
  | String c s' =>
      let d := digit_value c in
      if d <? radix
      then parse_digits radix s' (Some (match acc with Some a => a | None => 0 end * radix + d))
      else acc
  | EmptyString => acc
  end.

(** The non-NaN results of [parseInt]: an integral double, or an
    infinity ([neg]: negative). -0 is read as 0: both stores serialize
    it as 0. *)
Inductive intval :=
| Fin (z : Z)
| Inf (neg : bool).

(** The number value of a non-negative integer: the nearest double,
    ties to even, and +Infinity from 2^1024 on. *)
Definition to_double (m : Z) : intval :=
  if m <? 2 ^ 53 then Fin m
  else
    let k := Z.log2 m - 52 in
    let q := Z.shiftr m k in
    let r := m - Z.shiftl q k in
    let half := 2 ^ (k - 1) in
    let q' := if (half <? r) || ((r =? half) && Z.odd q) then q + 1 else q in
    let v := Z.shiftl q' k in
    if 2 ^ 1024 <=? v then Inf false else Fin v.

Definition apply_sign (sign : Z) (v : intval) : intval :=
  match v with
  | Fin z => Fin (sign * z)
  | Inf _ => Inf (sign <? 0)
  end.

Definition parseInt (s : string) : option intval :=
  let s := trim_left s in
  let '(sign, s) :=
    match s with
    | String "-" s' => (-1, s')
    | String "+" s' => (1, s')
    | _ => (1, s)
    end in
  let '(radix, s) :=
    if String.prefix "0x" s || String.prefix "0X" s
    then (16, substring 2 (String.length s - 2) s) else (10, s) in
  match parse_digits radix s None with
  | Some v => Some (apply_sign sign (to_double v))
  | None => None
  end.

(** What a handler does: answer at once, or send [updates] to the store. *)
Inductive outcome :=
| Respond (status : Z) (error : string)
| Update (stationId : intval) (updates : list (string * json)).

Definition is_null (b : json) : bool := match b with JNull => true | _ => false end.

(** [if (Object.keys(updates).length === 0) return 400; ... update(updates)]. *)
Definition respond_updates (stationId : intval) (updates : list (string * json)) : outcome :=
  if (length updates =? 0)%nat then Respond 400 "No valid fields to update"
  else Update stationId updates.

(** Lines 38-41: the update object of the Supabase snapshot. *)
Definition supabase_updates (onAir inspection68 : option json) : list (string * json) :=
  (match onAir with Some v => [("on_air", v)] | None => [] end ++
   match inspection68 with Some v => [("inspection_68", v)] | None => [] end)%list.

(** Lines 14-85 (Supabase snapshot), up to the store call. [body] is
    [None] when [request.json()] rejects; destructuring [null] throws; both
    end in the catch-all 500. *)
Definition patch_supabase (id : string) (body : option json) : outcome :=
  match parseInt id with
  | None => Respond 400 "Invalid station ID"
  | Some stationId =>
      match body with
      | None => Respond 500 "Internal server error"
      | Some b =>
          if is_null b then Respond 500 "Internal server error"
          else
            let onAir := get_field b "onAir" in
            let inspection68 := get_field b "inspection68" in
            respond_updates stationId (supabase_updates onAir inspection68)
      end
  end.

(** [new Date().toISOString().split('T')[0]]. *)
Fixpoint before_T (s : string) : string :=
  match s with
  | String "T" _ => EmptyString
  | String c s' => String c (before_T s')
  | EmptyString => EmptyString
  end.

(** [inspection68 === 'ตรวจแล้ว' || inspection68 === true]. *)
Definition inspected_value (v : json) : bool :=
  match v with
  | JStr w => String.eqb w INSPECTED
  | JBool true => true
  | _ => false
  end.

(** Lines 103-118: the update object of the Prisma snapshot; [now] is the
    ISO string of the current time. *)
Definition prisma_updates (now : string) (onAir inspection68 details : option json)
  : list (string * json) :=
  (match onAir with Some v => [("on_air", v)] | None => [] end ++
   match details with Some v => [("details", v)] | None => [] end ++
   match inspection68 with
   | Some v =>
       let inspected := inspected_value v in
       [("inspection_68", JBool inspected);
        ("date_inspected", if inspected then JStr (before_T now) else JNull)]
   | None => []
   end)%list.

(** Lines 89-138 (Prisma snapshot), up to the store call. *)
Definition patch_prisma (now : string) (id : string) (body : option json) : outcome :=
  match parseInt id with
  | None => Respond 400 "Invalid station ID"
  | Some stationId =>
      match body with
      | None => Respond 500 "Internal server error"
      | Some b =>
          if is_null b then Respond 500 "Internal server error"
          else
            let onAir := get_field b "onAir" in
            let inspection68 := get_field b "inspection68" in
            let details := get_field b "details" in
            respond_updates stationId (prisma_updates now onAir inspection68 details)
      end
  end.

End Route.

(** The coordinates of the spec's grouping example. *)
Definition lat_13_7563 : num := mkNum 137563 (-4).
Definition lat_13_75630001 : num := mkNum 1375630001 (-8).
Definition lon_100_5018 : num := mkNum 1005018 (-4).

(** A station on air status unknown ([onAir] undefined), inspected. *)
Definition station_onAir_unset : station :=
  {| id := IdNum 1; name := "FM"; frequency := mkNum 1005 (-1);
     latitude := lat_13_7563; longitude := lon_100_5018;
     city := "c"; state := "p"; genre := "g"; description := None;
     inspection68 := Some INSPECTED; dateInspected := None; details := None;
     onAir := None; unwanted := None; submitRequest := None |}.


(** Sample inputs: the user at (0, 0) and stations on the meridian at
    latitudes 0, 0.0001, ..., 0.1000 (1001 distinct rounded keys). *)
Definition zero : num := mkNum 0 0.
Definition calls1001 : list (num * num * num * num) :=
  map (fun i => (zero, zero, mkNum (Z.of_nat i) (-4), zero)) (seq 0 1001).

(** One call of [getDistance], uncurried: its key and its distance. *)
Definition callKey (x : num * num * num * num) : string :=
  let '(a, b, d, e) := x in DistanceCache.getCacheKey a b d e.
Definition callHav (x : num * num * num * num) : R :=
  let '(a, b, d, e) := x in DistanceCache.hav_num a b d e.

(** The spec's reading of C2: the distance of the inputs each rounded to 4
    decimal places (the value [toFixed(4)] prints). For comparison only. *)
Definition round4 (x : num) : num :=
  mkNum ((if mant x <? 0 then -1 else 1) * fixed_int4 (mant x) (exp x)) (-4).
Definition spec_rounded_distance (x : num * num * num * num) : R :=
  let '(a, b, d, e) := x in DistanceCache.hav_num (round4 a) (round4 b) (round4 d) (round4 e).

(** Two calls whose coordinates differ by 0.00001 and share one key. *)
Definition calls_collide : list (num * num * num * num) :=
  [(zero, zero, mkNum 1 (-5), zero); (zero, zero, zero, zero)].

(** Request bodies: an inspection toggle; a body with only a field the
    endpoint does not know; and a sample ISO timestamp. *)
Definition body_inspected : Route.json :=
  Route.JObj [("inspection68", Route.JStr INSPECTED)].
Definition body_unknown_only : Route.json :=
  Route.JObj [("unwanted", Route.JBool true)].
Definition now_sample : string := "2026-10-19T08:30:00.000Z".

(** ** The client's optimistic update ([handleUpdateStation],
    OptimizedFMStationClient.tsx lines 261-349) *)
Module UpdateFlow.
Import Route.

(** The part of [Partial<FMStation>] the UI sends: on-air toggle,
    inspection toggle, detail tag. Per key, [None] is "key absent" and
    [Some v] is "key present with value [v]" ([v = None] is an explicit
    [undefined], which the spread copies too). *)
Record partial := {
  u_onAir : option (option bool);
  u_inspection68 : option (option string);
  u_details : option (option string)
}.

Definition pick {A} (u : option A) (old : A) : A :=
  match u with Some v => v | None => old end.

(** [{ ...station, ...updates }]. *)
Definition spread (s : station) (u : partial) : station :=
  {| id := id s; name := name s; frequency := frequency s;
     latitude := latitude s; longitude := longitude s; city := city s;
     state := state s; genre := genre s; description := description s;
     inspection68 := pick (u_inspection68 u) (inspection68 s);
     dateInspected := dateInspected s;
     details := pick (u_details u) (details s);
     onAir := pick (u_onAir u) (onAir s);
     unwanted := unwanted s; submitRequest := submitRequest s |}.

(** The React state the handler touches. *)
Record ui := { stations : list station; selected : option station }.

(** The request: the numeric id of the URL ([parseInt] on a string id,
    [None] for NaN) and the body [apiUpdates]. *)
Record request := { req_id : option intval; req_body : list (string * json) }.

Definition numericId (sid : station_id) : option intval :=
  match sid with IdStr s => parseInt s | IdNum n => Some (Fin n) end.

(** Lines 287-296: a key goes into [apiUpdates] when present and not
    [undefined]. *)
Definition apiUpdates (u : partial) : list (string * json) :=
  (match u_onAir u with Some (Some b) => [("onAir", JBool b)] | _ => [] end ++
   match u_inspection68 u with Some (Some v) => [("inspection68", JStr v)] | _ => [] end ++
   match u_details u with Some (Some v) => [("details", JStr v)] | _ => [] end)%list.

(** The two functional [setState] updaters of lines 271-284 / 314-327. *)
Definition map_stations (sid : station_id) (f : station -> station) (l : list station) :=
  map (fun s => if id_eqb (id s) sid then f s else s) l.
Definition map_selected (sid : station_id) (f : station -> station) (p : option station) :=
  match p with
  | Some q => if id_eqb (id q) sid then Some (f q) else Some q
  | None => None
  end.
Definition set_both (sid : station_id) (f : station -> station) (st : ui) : ui :=
  {| stations := map_stations sid f (stations st);
     selected := map_selected sid f (selected st) |}.

(** The synchronous part: the lookup in the captured [stations] list
    ([closure]), the two optimistic updaters applied to the current state,
    and the request that is sent ([None]: nothing sent). *)
Definition handleUpdateStation (closure : list station) (st : ui)
    (sid : station_id) (u : partial) : ui * option request :=
  match find (fun s => id_eqb (id s) sid) closure with
  | None => (st, None)
  | Some _ =>
      (set_both sid (fun s => spread s u) st,
       Some {| req_id := numericId sid; req_body := apiUpdates u |})
  end.

(** The row the server returns in [result.data]. [on_air] and
    [inspection_68] as the code reads them ([inspection_68] by
    truthiness). *)
Record serverRow := {
  r_on_air : option bool;
  r_inspection_68_truthy : bool;
  r_date_inspected : option string;
  r_details : option string;
  r_unwanted : json;
  r_submit_a_request : option string
}.

(** How the [fetch] promise settles: rejected ([NetworkError]), a non-2xx
    status, a 2xx whose [response.json()] rejects, a 2xx without
    [result.data], or a 2xx with a row. *)
Inductive response :=
| NetworkError
| NotOk (status : Z)
| OkBadJson
| OkNoData
| OkData (row : serverRow).

Definition unwanted_of (j : json) : bool :=
  match j with
  | JStr w => String.eqb w "true"
  | JBool true => true
  | _ => false
  end.

(** [{ ...station, ...serverData }]. *)
Definition reconcile (r : serverRow) (s : station) : station :=
  {| id := id s; name := name s; frequency := frequency s;
     latitude := latitude s; longitude := longitude s; city := city s;
     state := state s; genre := genre s; description := description s;
     inspection68 := Some (if r_inspection_68_truthy r then INSPECTED else NOT_INSPECTED);
     dateInspected := r_date_inspected r;
     details := r_details r;
     onAir := r_on_air r;
     unwanted := Some (unwanted_of (r_unwanted r));
     submitRequest := r_submit_a_request r |}.

(** Lines 297-343: the continuation run when the promise settles, on the
    state current at that time; only a row changes it, every failure path
    just logs. *)
Definition on_response (sid : station_id) (resp : response) (st : ui) : ui :=
  match resp with
  | OkData r => set_both sid (reconcile r) st
  | NetworkError | NotOk _ | OkBadJson | OkNoData => st
  end.

Definition failed (resp : response) : bool :=
  match resp with NetworkError | NotOk _ | OkBadJson => true | _ => false end.

(** "The update reflects [u]": every field [u] carries has its value. *)
Definition reflects (u : partial) (s : station) : Prop :=
  (forall v, u_onAir u = Some v -> onAir s = v) /\
  (forall v, u_inspection68 u = Some v -> inspection68 s = v) /\
  (forall v, u_details u = Some v -> details s = v).

End UpdateFlow.

(* ------------------------------------------------------------------ *)
(** ** [Array.from(new Set(xs))] *)

Module JSArray.

(** [Set.prototype.add]: a value already present (by [eqb], which is
    SameValueZero on strings and [null]) is not added again. *)
Definition set_add {A} (eqb : A -> A -> bool) (acc : list A) (x : A) : list A :=
  if existsb (eqb x) acc then acc else (acc ++ [x])%list.

(** [Array.from(new Set(xs))]: the distinct values in first-insertion order. *)
Definition array_from_set {A} (eqb : A -> A -> bool) (xs : list A) : list A :=
  fold_left (set_add eqb) xs [].

(** [===] on a nullable string column. *)
Definition opt_eqb (a b : option string) : bool :=
  match a, b with
  | Some x, Some y => String.eqb x y
  | None, None => true
  | _, _ => false
  end.

End JSArray.

(* ------------------------------------------------------------------ *)
(** ** stationService.ts and FMStationsFetcher.tsx *)

Module Service.
Import JSArray.

(** [submit_a_request] and [unwanted]: [string | boolean]. *)
Inductive strOrBool := SBStr (s : string) | SBBool (b : bool).

(** [FMStationRow], lines 5-20; an optional column is [None] when null. *)
Record FMStationRow := mkRow {
  id_fm : Z;
  name : string;
  freq : num;
  lat : num;
  long : num;
  district : string;
  province : string;
  type : string;
  permit : option string;
  inspection_67 : option string;
  inspection_68 : option string;
  on_air : bool;
  unwanted : strOrBool;
  submit_a_request : strOrBool
}.

(** [convertToFMStation], lines 23-45, on the fields of [station];
    [dateInspected] and [details] are not set, i.e. [undefined]. *)
Definition convertToFMStation (row : FMStationRow) : station :=
  mkStation (IdNum (id_fm row)) (name row) (freq row) (lat row) (long row)
    (district row) (province row) (type row)
    (Some (type row ++ " radio station in " ++ district row ++ ", " ++ province row))
    (inspection_68 row) None None
    (Some (on_air row))
    (Some (match unwanted row with SBStr s => String.eqb s "true" | SBBool b => b end))
    (Some (match submit_a_request row with
           | SBStr s => s
           | SBBool b => if b then NOT_SUBMITTED else ""
           end)).

(** [fetchUniqueCities] and the like, lines 160, 186, 212, 238:
    [Array.from(new Set(values)).filter(Boolean)] on the column values. *)
Definition unique_values (xs : list (option string)) : list (option string) :=
  filter truthy (array_from_set opt_eqb xs).

(** The same lists built by FMStationsFetcher.tsx, lines 71-73:
    [Array.from(new Set(values.filter(Boolean)))]. *)
Definition fetcher_unique_values (xs : list (option string)) : list (option string) :=
  array_from_set opt_eqb (filter truthy xs).

(** [checkDuplicateCoordinates], lines 314-331, once [fetchFMStations] has
    returned [stations]. The keys of [duplicates] contain a comma, so they
    are no array indices and the object keeps them in insertion order,
    like a [Map]. *)
Definition checkDuplicateCoordinates (stations : list station) : @JSMap.t (list station) :=
  fold_left
    (fun acc e => if (1 <? length (snd e))%nat then JSMap.set (fst e) (snd e) acc else acc)
    (Grouping.groupStationsByCoordinates stations) [].

End Service.

(* ------------------------------------------------------------------ *)
(** ** The city list and the filter state (useOptimizedFilters.ts,
    lines 225-239; OptimizedFMStationClient.tsx, lines 230-250) *)

Module CityFilter.
Import JSArray.

(** [useOptimizedCityFilter]. *)
Definition useOptimizedCityFilter (stations : list station) (selectedProvince : option string)
    (initialCities : list string) : list string :=
  if truthy selectedProvince then
    match selectedProvince with
    | Some p => array_from_set String.eqb
                  (map city (filter (fun s => String.eqb (state s) p) stations))
    | None => initialCities
    end
  else initialCities.

(** The effect of lines 231-244: the new filter state ([setFilters] with
    [{...prevFilters, city: ''}]), the state current when the effect runs. *)
Definition autoClearCity (stations : list station) (f : filterType) : filterType :=
  if truthy (f_province f) && truthy (f_city f) then
    match f_province f, f_city f with
    | Some p, Some c =>
        if existsb (fun s => String.eqb (state s) p && String.eqb (city s) c) stations
        then f
        else {| f_onAir := f_onAir f; f_city := Some ""; f_province := f_province f;
                f_inspection := f_inspection f; f_search := f_search f;
                f_submitRequest := f_submitRequest f |}
    | _, _ => f
    end
  else f.

(** [clearFilters] sets the filter state to [{}]. *)
Definition noFilters : filterType :=
  {| f_onAir := None; f_city := None; f_province := None; f_inspection := None;
     f_search := None; f_submitRequest := None |}.

End CityFilter.

(* ------------------------------------------------------------------ *)
(** ** The filter stages seen as one predicate *)

Module Pipeline.
Import Filters.

(** The predicates [filteredStations] applies, in its order. *)
Definition active_preds (f : filterType) : list (station -> bool) :=
  flat_map (fun o => match o with Some p => [p] | None => [] end)
    [city_pred f; province_pred f; inspection_pred f; onAir_pred f;
     submitRequest_pred f; search_pred f].

Definition keep (f : filterType) (s : station) : bool :=
  forallb (fun p => p s) (active_preds f).

End Pipeline.

(* ------------------------------------------------------------------ *)
(** ** Map.tsx: the popup distance and the inspection toggle *)

Module MapView.


(** The toggle button, lines 376-379. *)
Definition newStatus (s : station) : string :=
  if match inspection68 s with Some w => String.eqb w INSPECTED | None => false end
  then NOT_INSPECTED else INSPECTED.

(** [onUpdateStation(station.id, { inspection68: newStatus })]. *)
Definition toggle_update (s : station) : UpdateFlow.partial :=
  {| UpdateFlow.u_onAir := None; UpdateFlow.u_inspection68 := Some (Some (newStatus s));
     UpdateFlow.u_details := None |}.

End MapView.

(* ------------------------------------------------------------------ *)
(** ** Decimal strings, to describe what [parseInt] reads *)

Module Decimal.

Definition is_digit (c : ascii) : bool :=
  (48 <=? nat_of_ascii c)%nat && (nat_of_ascii c <=? 57)%nat.

Fixpoint all_digits (s : string) : bool :=
  match s with
  | String c s' => is_digit c && all_digits s'
  | EmptyString => true
  end.

Fixpoint decimal_acc (s : string) (acc : Z) : Z :=
  match s with
  | String c s' => decimal_acc s' (acc * 10 + Route.digit_value c)
  | EmptyString => acc
  end.

Definition decimal_value (s : string) : Z := decimal_acc s 0.

(** A suffix that ends a decimal number: empty, or starting with a
    character that is no decimal digit and no [x] or [X]. *)
Definition ends_number (r : string) : bool :=
  match r with
  | String c _ => (10 <=? Route.digit_value c) && negb (Ascii.eqb c "x") && negb (Ascii.eqb c "X")
  | EmptyString => true
  end.

End Decimal.

(* ------------------------------------------------------------------ *)
(** ** Code points, to describe the white space [parseInt] skips *)

Module Unicode.

(** The UTF-8 encoding of a code point below U+10000. *)
Definition utf8 (cp : Z) : string :=
  let byte (b : Z) := ascii_of_nat (Z.to_nat b) in
  if cp <? 128 then String (byte cp) ""
  else if cp <? 2048 then
    String (byte (192 + cp / 64)) (String (byte (128 + cp mod 64)) "")
  else
    String (byte (224 + cp / 4096))
      (String (byte (128 + (cp / 64) mod 64)) (String (byte (128 + cp mod 64)) "")).

(** The WhiteSpace and LineTerminator code points of ECMAScript (the
    [Zs] category of Unicode 15 included), which TrimString removes. *)
Definition js_whitespace : list Z :=
  [9; 10; 11; 12; 13; 32; 160; 5760] ++
  map (fun k => 8192 + Z.of_nat k) (seq 0 11) ++
  [8232; 8233; 8239; 8287; 12288; 65279].

End Unicode.

(** Sample state: two stations, the first selected; toggle it off air. *)
Definition station_two : station :=
  {| id := IdNum 2; name := "FM2"; frequency := mkNum 1017 (-1);
     latitude := lat_13_75630001; longitude := lon_100_5018;
     city := "c"; state := "p"; genre := "g"; description := None;
     inspection68 := None; dateInspected := None; details := Some "#deviation";
     onAir := Some true; unwanted := None; submitRequest := None |}.
Definition ui_sample : UpdateFlow.ui :=
  {| UpdateFlow.stations := [station_onAir_unset; station_two];
     UpdateFlow.selected := Some station_onAir_unset |}.
Definition toggle_off : UpdateFlow.partial :=
  {| UpdateFlow.u_onAir := Some (Some false); UpdateFlow.u_inspection68 := None;
     UpdateFlow.u_details := None |}.

(** A full cache: 1001 entries with distinct keys. *)
Definition cache_1001 : DistanceCache.cache :=
  map (fun i => (toString (mkNum (Z.of_nat i) 0), 0%R)) (seq 0 1001).

(** The row the server returns after an update to "not inspected". *)
Definition row_not_inspected : UpdateFlow.serverRow :=
  {| UpdateFlow.r_on_air := None; UpdateFlow.r_inspection_68_truthy := false;
     UpdateFlow.r_date_inspected := None; UpdateFlow.r_details := None;
     UpdateFlow.r_unwanted := Route.JBool false; UpdateFlow.r_submit_a_request := None |}.


(* ================================================================== *)
(** * Properties *)

(** ** Conversions on sample numbers *)

Example toFixed4_ex1 : toFixed4 (mkNum 137563 (-4)) = "13.7563".
Proof. reflexivity. Qed.
Example toFixed4_ex2 : toFixed4 (mkNum (-5) (-5)) = "-0.0001".
Proof. reflexivity. Qed.
Example toFixed4_ex3 : toFixed4 (mkNum 1 (-5)) = "0.0000".
Proof. reflexivity. Qed.
Example toString_ex1 : toString (mkNum 1375630001 (-8)) = "13.75630001".
Proof. reflexivity. Qed.
Example toString_ex2 : toString (mkNum 1005000 (-5)) = "10.05".
Proof. reflexivity. Qed.
Example toString_ex3 : toString (mkNum 1 (-7)) = "1e-7".
Proof. reflexivity. Qed.
Example toString_ex4 : toString (mkNum 100 0) = "100".
Proof. reflexivity. Qed.

(** ** [parseInt] on sample ids *)

Example parseInt_ex1 : Route.parseInt (String (ascii_of_nat 194) (String (ascii_of_nat 160) "12"))
  = Some (Route.Fin 12).
Proof. vm_compute. reflexivity. Qed.
Example parseInt_ex2 : Route.parseInt "9007199254740993" = Some (Route.Fin 9007199254740992).
Proof. vm_compute. reflexivity. Qed.
Example parseInt_ex3 : Route.parseInt " -0x1Fz" = Some (Route.Fin (-31)).
Proof. vm_compute. reflexivity. Qed.
Example parseInt_ex4 : Route.parseInt "0x" = None.
Proof. vm_compute. reflexivity. Qed.
Example parseInt_ex5 : Route.parseInt "9007199254740995" = Some (Route.Fin 9007199254740996).
Proof. vm_compute. reflexivity. Qed.
Example parseInt_ex6 : Route.parseInt ("-1" ++ JSNum.zeros 400) = Some (Route.Inf true).
Proof. vm_compute. reflexivity. Qed.

(* ------------------------------------------------------------------ *)
(** ** The keys of the cache do not depend on the values stored *)

Module CacheKeys.
Import DistanceCache.

Definition keys {V} (m : @JSMap.t V) : list string := map fst m.

Section Keys.
Context {V W : Type}.

Lemma get_none_keys (k : string) (m : @JSMap.t V) (m' : @JSMap.t W) :
  keys m = keys m' -> (JSMap.get k m = None <-> JSMap.get k m' = None).
Proof.
  revert m'; induction m as [|[k1 v1] m IH]; intros [|[k2 v2] m'] H;
    simpl in *; try discriminate; [tauto|].
  injection H as -> H.
  destruct (String.eqb k2 k); [split; discriminate|].
  now apply IH.
Qed.

Lemma has_keys (k : string) (m : @JSMap.t V) (m' : @JSMap.t W) :
  keys m = keys m' -> JSMap.has k m = JSMap.has k m'.
Proof.
  revert m'; induction m as [|[k1 v1] m IH]; intros [|[k2 v2] m'] H;
    simpl in *; try discriminate; [reflexivity|].
  injection H as -> H. now rewrite (IH m' H).
Qed.

Lemma replace_keys {A} (k : string) (v : A) (m : @JSMap.t A) :
  keys (JSMap.replace k v m) = keys m.
Proof.
  induction m as [|[k1 v1] m IH]; simpl; [reflexivity|].
  destruct (String.eqb k1 k); simpl; now rewrite ?IH.
Qed.

Lemma set_keys (k : string) (v : V) (w : W) (m : @JSMap.t V) (m' : @JSMap.t W) :
  keys m = keys m' -> keys (JSMap.set k v m) = keys (JSMap.set k w m').
Proof.
  intros H. unfold JSMap.set. rewrite (has_keys k m m' H).
  destruct (JSMap.has k m'); [now rewrite !replace_keys|].
  unfold keys in *. now rewrite !map_app, H.
Qed.

Lemma rebuild_keys (m : @JSMap.t V) (m' : @JSMap.t W) :
  keys m = keys m' -> keys (JSMap.rebuild m) = keys (JSMap.rebuild m').
Proof.
  unfold JSMap.rebuild.
  assert (G : forall (a : @JSMap.t V) (a' : @JSMap.t W), keys a = keys a' ->
            keys m = keys m' ->
            keys (fold_left (fun acc e => JSMap.set (fst e) (snd e) acc) m a) =
            keys (fold_left (fun acc e => JSMap.set (fst e) (snd e) acc) m' a')).
  { revert m'; induction m as [|[k1 v1] m IH]; intros [|[k2 v2] m'] a a' Ha H;
      simpl in *; try discriminate; [assumption|].
    injection H as -> H. apply IH; [|exact H].
    now apply set_keys. }
  intros H. now apply G.
Qed.

Lemma slice_neg_keys (n : nat) (m : @JSMap.t V) (m' : @JSMap.t W) :
  keys m = keys m' -> keys (JSMap.slice_neg n m) = keys (JSMap.slice_neg n m').
Proof.
  intros H. unfold JSMap.slice_neg, keys in *.
  assert (L : length m = length m').
  { rewrite <- (length_map fst m), <- (length_map fst m'). now rewrite H. }
  rewrite L, <- !skipn_map. now rewrite H.
Qed.

Lemma size_keys (m : @JSMap.t V) (m' : @JSMap.t W) :
  keys m = keys m' -> JSMap.size m = JSMap.size m'.
Proof.
  intros H. unfold JSMap.size.
  rewrite <- (length_map fst m), <- (length_map fst m'). unfold keys in H. now rewrite H.
Qed.

Lemma getDistance_keys (f : num -> num -> num -> num -> V)
  (g : num -> num -> num -> num -> W) (m : @JSMap.t V) (m' : @JSMap.t W) a b c d :
  keys m = keys m' ->
  keys (snd (getDistance_with f m a b c d)) = keys (snd (getDistance_with g m' a b c d)).
Proof.
  intros H. unfold getDistance_with.
  set (key := getCacheKey a b c d).
  pose proof (get_none_keys key m m' H) as G.
  destruct (JSMap.get key m) eqn:E1, (JSMap.get key m') eqn:E2; simpl;
    try (exfalso; intuition discriminate); [exact H|].
  rewrite (size_keys m m' H).
  destruct (maxCacheSize <? JSMap.size m')%nat; apply set_keys;
    [apply rebuild_keys, slice_neg_keys|]; exact H.
Qed.

Lemma run_keys (f : num -> num -> num -> num -> V)
  (g : num -> num -> num -> num -> W) calls (m : @JSMap.t V) (m' : @JSMap.t W) :
  keys m = keys m' ->
  keys (snd (run_with f m calls)) = keys (snd (run_with g m' calls)).
Proof.
  revert m m'; induction calls as [|[[[a b] c] d] calls IH]; intros m m' H;
    simpl; [exact H|].
  destruct (getDistance_with f m a b c d) as [v m1] eqn:E1.
  destruct (getDistance_with g m' a b c d) as [w m1'] eqn:E2.
  destruct (run_with f m1 calls) as [vs m2] eqn:E3.
  destruct (run_with g m1' calls) as [ws m2'] eqn:E4. simpl.
  pose proof (getDistance_keys f g m m' a b c d H) as K.
  rewrite E1, E2 in K. simpl in K.
  specialize (IH m1 m1' K). now rewrite E3, E4 in IH.
Qed.

End Keys.
End CacheKeys.

(* ------------------------------------------------------------------ *)
(** ** C1: the size of the distance cache *)

Module CacheBound.
Import DistanceCache CacheKeys.

Lemma replace_length {V} (k : string) (v : V) (m : @JSMap.t V) :
  length (JSMap.replace k v m) = length m.
Proof.
  induction m as [|[k1 v1] m IH]; simpl; [reflexivity|].
  destruct (String.eqb k1 k); simpl; now rewrite ?IH.
Qed.

Lemma set_size_le {V} (k : string) (v : V) (m : @JSMap.t V) :
  (JSMap.size (JSMap.set k v m) <= S (JSMap.size m))%nat.
Proof.
  unfold JSMap.set, JSMap.size. destruct (JSMap.has k m).
  - rewrite replace_length; lia.
  - rewrite length_app; simpl; lia.
Qed.

Lemma rebuild_size_le {V} (m : @JSMap.t V) :
  (JSMap.size (JSMap.rebuild m) <= JSMap.size m)%nat.
Proof.
  unfold JSMap.rebuild.
  assert (G : forall a : @JSMap.t V,
    (JSMap.size (fold_left (fun acc e => JSMap.set (fst e) (snd e) acc) m a)
       <= JSMap.size a + length m)%nat).
  { induction m as [|[k v] m IH]; intros a; simpl; [lia|].
    specialize (IH (JSMap.set k v a)).
    pose proof (set_size_le k v a). lia. }
  specialize (G []). exact G.
Qed.

(** Whatever the calls, the cache never holds more than 1001 entries. *)
Lemma getDistance_size_le (c : cache) a b d e :
  (JSMap.size c <= 1001)%nat ->
  (JSMap.size (snd (getDistance c a b d e)) <= 1001)%nat.
Proof.
  intros H. unfold getDistance, getDistance_with.
  destruct (JSMap.get _ c) as [v|]; simpl; [exact H|].
  destruct (maxCacheSize <? JSMap.size c)%nat eqn:Big.
  - eapply Nat.le_trans; [apply set_size_le|].
    eapply Nat.le_trans; [apply le_n_S, rebuild_size_le|].
    unfold JSMap.slice_neg, JSMap.size. rewrite length_skipn.
    unfold maxCacheSize. simpl. lia.
  - apply Nat.ltb_ge in Big. unfold maxCacheSize in Big.
    pose proof (set_size_le (getCacheKey a b d e) (hav_num a b d e) c). lia.
Qed.

Lemma run_size_le (c : cache) calls :
  (JSMap.size c <= 1001)%nat ->
  (JSMap.size (snd (run c calls)) <= 1001)%nat.
Proof.
  unfold run. revert c; induction calls as [|[[[a b] d] e] calls IH]; intros c H;
    simpl; [exact H|].
  destruct (getDistance_with hav_num c a b d e) as [v c1] eqn:E1.
  destruct (run_with hav_num c1 calls) as [vs c2] eqn:E2. simpl.
  pose proof (getDistance_size_le c a b d e H) as H1.
  unfold getDistance in H1. rewrite E1 in H1. simpl in H1.
  specialize (IH c1 H1). now rewrite E2 in IH.
Qed.

(** C1 (code_bug): after the 1001 distinct keys of [calls1001], starting
    from an empty cache, [getStats] reports 1001 entries, above its own
    [maxSize] of 1000: the eviction test [size > maxCacheSize] runs only
    before an insertion, so the 1001st key is stored without eviction. *)
Theorem getStats_after_1001_keys :
  length (nodup string_dec (map (fun '(a, b, d, e) => getCacheKey a b d e) calls1001))
    = 1001%nat /\
  getStats (snd (run empty calls1001)) = {| size := 1001; maxSize := 1000 |}.
Proof.
  split; [vm_compute; reflexivity|].
  unfold getStats.
  rewrite (size_keys (snd (run empty calls1001))
             (snd (run_with (fun _ _ _ _ => tt) [] calls1001))).
  - vm_compute. reflexivity.
  - apply run_keys. reflexivity.
Qed.

End CacheBound.

(* ------------------------------------------------------------------ *)
(** ** C2: values returned by the distance cache *)

Module CacheValues.
Import DistanceCache.

Lemma haversine_same_point (p q : R) : haversine p q p q = 0%R.
Proof.
  unfold haversine, atan2.
  replace ((p - p) * PI / 180 / 2)%R with 0%R by field.
  replace ((q - q) * PI / 180 / 2)%R with 0%R by field.
  rewrite sin_0, ?Rmult_0_r, ?Rmult_0_l, Rplus_0_r, Rminus_0_r, sqrt_0, sqrt_1.
  destruct (Rlt_dec 0 1) as [_|H]; [|lra].
  unfold Rdiv. rewrite Rmult_0_l, atan_0. ring.
Qed.

Lemma haversine_meridian_pos (t : R) :
  (0 < t < 180)%R -> (0 < haversine 0 0 t 0)%R.
Proof.
  intros [H0 H1]. unfold haversine, atan2.
  set (h := ((t - 0) * PI / 180 / 2)%R).
  assert (Hh : (0 < h < PI / 2)%R).
  { pose proof PI_RGT_0. unfold h. split.
    - apply Rmult_lt_0_compat; [|lra].
      unfold Rdiv. apply Rmult_lt_0_compat; [|lra]. apply Rmult_lt_0_compat; lra.
    - apply (Rmult_lt_reg_r 360); [lra|].
      replace ((t - 0) * PI / 180 / 2 * 360)%R with (t * PI)%R by field.
      replace (PI / 2 * 360)%R with (180 * PI)%R by field.
      apply Rmult_lt_compat_r; lra. }
  replace ((0 - 0) * PI / 180 / 2)%R with 0%R by field.
  rewrite sin_0, !Rmult_0_r, Rplus_0_r.
  assert (Hs : (0 < sin h)%R) by (apply sin_gt_0; pose proof PI2_Rlt_PI; lra).
  assert (Hc : (0 < cos h)%R) by (apply cos_gt_0; lra).
  assert (E : (1 - sin h * sin h = cos h * cos h)%R).
  { pose proof (sin2_cos2 h) as S. unfold Rsqr in S. lra. }
  rewrite E.
  assert (Ha : (0 < sqrt (sin h * sin h))%R) by (apply sqrt_lt_R0; nra).
  assert (Hb : (0 < sqrt (cos h * cos h))%R) by (apply sqrt_lt_R0; nra).
  destruct (Rlt_dec 0 (sqrt (cos h * cos h))) as [_|N]; [|lra].
  assert (0 < atan (sqrt (sin h * sin h) / sqrt (cos h * cos h)))%R.
  { rewrite <- atan_0. apply atan_increasing.
    unfold Rdiv. apply Rmult_lt_0_compat; [lra|]. now apply Rinv_0_lt_compat. }
  lra.
Qed.

Lemma run_calls_collide :
  fst (run empty calls_collide) =
  [hav_num zero zero (mkNum 1 (-5)) zero; hav_num zero zero (mkNum 1 (-5)) zero].
Proof.
  unfold run, calls_collide, empty.
  cbv beta iota zeta delta -[hav_num].
  reflexivity.
Qed.

(** C2 (as stated, refuted): on [calls_collide] the cache returns the
    distance of the first call twice. It is neither the distance of the
    rounded inputs (first call) nor that of the current inputs (second). *)
Lemma getDistance_not_rounded_haversine :
  fst (run empty calls_collide) <> map spec_rounded_distance calls_collide /\
  fst (run empty calls_collide) <> map callHav calls_collide.
Proof.
  rewrite run_calls_collide.
  assert (Z0 : toR zero = 0%R) by (unfold toR; simpl; ring).
  assert (R0 : toR (round4 (mkNum 1 (-5))) = 0%R) by (unfold toR; simpl; ring).
  assert (P : (0 < hav_num zero zero (mkNum 1 (-5)) zero)%R).
  { unfold hav_num. rewrite Z0. apply haversine_meridian_pos.
    unfold toR; simpl. split; [apply Rmult_lt_0_compat; [lra|apply Rinv_0_lt_compat; lra]|].
    apply (Rmult_lt_reg_r 100000); [lra|]. field_simplify; lra. }
  split; intros H; simpl in H.
  - injection H as H1 H2. unfold hav_num in H1. rewrite R0, Z0 in H1.
    assert (R1 : toR (round4 zero) = 0%R) by (unfold toR; simpl; ring).
    rewrite R1, haversine_same_point in H1.
    unfold hav_num in P. rewrite Z0 in P. lra.
  - injection H as H2. unfold hav_num in H2. rewrite Z0, haversine_same_point in H2.
    unfold hav_num in P. rewrite Z0 in P. lra.
Qed.

Section Invariant.

(** Every cached entry holds the distance of an earlier call with its key. *)
Definition Inv (hist : list (num * num * num * num)) (c : cache) : Prop :=
  forall k v, In (k, v) c -> exists y, In y hist /\ callKey y = k /\ v = callHav y.

Lemma get_In {V} (k : string) (v : V) (m : @JSMap.t V) :
  JSMap.get k m = Some v -> In (k, v) m.
Proof.
  induction m as [|[k1 v1] m IH]; simpl; [discriminate|].
  destruct (String.eqb k1 k) eqn:E.
  - apply String.eqb_eq in E. intros H. injection H as ->. subst. now left.
  - intros H. right. now apply IH.
Qed.

Lemma replace_In {V} e (k : string) (v : V) (m : @JSMap.t V) :
  In e (JSMap.replace k v m) -> In e m \/ e = (k, v).
Proof.
  induction m as [|[k1 v1] m IH]; simpl; [tauto|].
  destruct (String.eqb k1 k) eqn:E; simpl.
  - apply String.eqb_eq in E. subst. intros [<-|H]; [now right|now left; right].
  - intros [<-|H]; [now left; left|]. destruct (IH H); tauto.
Qed.

Lemma set_In {V} e (k : string) (v : V) (m : @JSMap.t V) :
  In e (JSMap.set k v m) -> In e m \/ e = (k, v).
Proof.
  unfold JSMap.set. destruct (JSMap.has k m); [apply replace_In|].
  intros H. apply in_app_or in H as [H|[H|[]]]; [now left|now right].
Qed.

Lemma rebuild_In {V} e (m : @JSMap.t V) : In e (JSMap.rebuild m) -> In e m.
Proof.
  unfold JSMap.rebuild.
  assert (G : forall a : @JSMap.t V,
    In e (fold_left (fun acc e => JSMap.set (fst e) (snd e) acc) m a) -> In e a \/ In e m).
  { induction m as [|[k v] m IH]; intros a; simpl; [tauto|].
    intros H. destruct (IH _ H) as [H1|H1]; [|tauto].
    destruct (set_In _ _ _ _ H1) as [H2|H2]; [tauto|right; left; now symmetry]. }
  intros H. destruct (G [] H) as [[]|]; assumption.
Qed.

Lemma slice_neg_In {A} (e : A) n l : In e (JSMap.slice_neg n l) -> In e l.
Proof.
  unfold JSMap.slice_neg. intros H.
  rewrite <- (firstn_skipn (length l - n) l). apply in_or_app. now right.
Qed.

Lemma getDistance_step hist (c : cache) x :
  Inv hist c ->
  let '(a, b, d, e) := x in
  Inv (hist ++ [x]) (snd (getDistance c a b d e)) /\
  exists y, In y (hist ++ [x]) /\ callKey y = callKey x /\
            fst (getDistance c a b d e) = callHav y.
Proof.
  destruct x as [[[a b] d] e]. intros I.
  assert (W : forall y, In y hist -> In y (hist ++ [(a, b, d, e)]))
    by (intros; apply in_or_app; now left).
  unfold getDistance, getDistance_with.
  destruct (JSMap.get (getCacheKey a b d e) c) as [v|] eqn:G; simpl.
  - split.
    + intros k w H. destruct (I k w H) as [y [Y1 Y2]]. exists y; auto.
    + destruct (I _ _ (get_In _ _ _ G)) as [y [Y1 [Y2 Y3]]].
      exists y. auto.
  - split.
    + intros k w H. apply set_In in H as [H|H].
      * assert (H' : In (k, w) c).
        { destruct (maxCacheSize <? JSMap.size c)%nat; [|exact H].
          now apply rebuild_In, slice_neg_In in H. }
        destruct (I k w H') as [y [Y1 Y2]]. exists y; auto.
      * injection H as -> ->. exists (a, b, d, e).
        split; [apply in_or_app; right; now left|]. split; reflexivity.
    + exists (a, b, d, e). split; [apply in_or_app; right; now left|]. split; reflexivity.
Qed.

Lemma run_inv hist (c : cache) calls :
  Inv hist c ->
  length (fst (run c calls)) = length calls /\
  Inv (hist ++ calls) (snd (run c calls)) /\
  forall i x r, nth_error calls i = Some x -> nth_error (fst (run c calls)) i = Some r ->
    exists y, In y (hist ++ firstn (S i) calls) /\ callKey y = callKey x /\ r = callHav y.
Proof.
  unfold run. revert hist c.
  induction calls as [|x calls IH]; intros hist c I; simpl.
  - rewrite app_nil_r. split; [reflexivity|]. split; [exact I|].
    intros [|i]; discriminate.
  - pose proof (getDistance_step hist c x I) as S.
    destruct x as [[[a b] d] e]. unfold getDistance in S.
    destruct (getDistance_with hav_num c a b d e) as [v c1] eqn:E1. simpl in S.
    destruct S as [I1 [y0 Hy0]].
    destruct (IH (hist ++ [(a, b, d, e)])%list c1 I1) as [L [I2 P]].
    destruct (run_with hav_num c1 calls) as [vs c2] eqn:E2. simpl in *.
    rewrite <- app_assoc in I2. simpl in I2.
    split; [now rewrite L|]. split; [exact I2|].
    intros [|i] x r Hx Hr; simpl in Hx, Hr.
    + injection Hx as <-. injection Hr as <-. exists y0.
      destruct Hy0 as [Y1 Y2]. split; [|exact Y2].
      now rewrite firstn_O.
    + destruct (P i x r Hx Hr) as [y [Y1 Y2]]. exists y. split; [|exact Y2].
      now rewrite <- app_assoc in Y1.
Qed.

End Invariant.

(** C2 (amended): from an empty cache, each call of a sequence returns the
    Haversine distance (radius 6371 km) of the unrounded inputs of a call
    made at or before it whose rounded key equals its own, whatever
    evictions happened; on a key not in the cache that distance is the one
    of its own inputs. *)
Theorem getDistance_returns_haversine_of_same_key calls :
  length (fst (run empty calls)) = length calls /\
  (forall i x r, nth_error calls i = Some x -> nth_error (fst (run empty calls)) i = Some r ->
     exists y, In y (firstn (S i) calls) /\ callKey y = callKey x /\ r = callHav y) /\
  (forall (c : cache) a b d e, JSMap.get (getCacheKey a b d e) c = None ->
     fst (getDistance c a b d e) = haversine (toR a) (toR b) (toR d) (toR e)).
Proof.
  destruct (run_inv [] empty calls) as [L [_ P]].
  { intros k v []. }
  split; [exact L|]. split; [exact P|].
  intros c a b d e G. unfold getDistance, getDistance_with. now rewrite G.
Qed.

End CacheValues.

(* ------------------------------------------------------------------ *)
(** ** C5 and C6: the submitRequest and search filters *)

Module FilterProps.
Import Filters.

Lemma filter_comm {A} (p q : A -> bool) (l : list A) :
  filter p (filter q l) = filter q (filter p l).
Proof.
  induction l as [|x l IH]; simpl; [reflexivity|].
  destruct (q x) eqn:Q, (p x) eqn:P; simpl; rewrite ?Q, ?P, IH; reflexivity.
Qed.

Lemma apply_opt_filter_comm (o : option (station -> bool)) p l :
  apply_opt o (filter p l) = filter p (apply_opt o l).
Proof. destruct o; simpl; [apply filter_comm|reflexivity]. Qed.

(** C5: a [submitRequest] filter value of ['ไม่ยื่น'] keeps exactly the
    stations whose [submitRequest] is ['ไม่ยื่น'] (on top of the other
    filters); any other set value filters out nothing. *)
Theorem submitRequest_filter_only_not_submitted (f : filterType) (stations : list station) :
  (f_submitRequest f = Some NOT_SUBMITTED ->
   filteredStations f stations =
   filter is_not_submitted (filteredStations (clear_submitRequest f) stations)) /\
  (forall v, f_submitRequest f = Some v -> v <> NOT_SUBMITTED ->
   filteredStations f stations = filteredStations (clear_submitRequest f) stations).
Proof.
  split.
  - intros H. destruct stations as [|s0 l]; [reflexivity|].
    unfold filteredStations, submitRequest_pred. rewrite H, String.eqb_refl.
    unfold search_pred, onAir_pred, inspection_pred, province_pred, city_pred,
      clear_submitRequest; simpl.
    apply apply_opt_filter_comm.
  - intros v H N. destruct stations as [|s0 l]; [reflexivity|].
    unfold filteredStations, submitRequest_pred. rewrite H.
    apply String.eqb_neq in N. rewrite N. reflexivity.
Qed.

Lemma prefix_app (t s : string) : String.prefix t (t ++ s) = true.
Proof.
  induction t as [|a t IH]; simpl; [destruct s; reflexivity|].
  destruct (ascii_dec a a) as [_|N]; [exact IH|now destruct N].
Qed.





End FilterProps.

(* ------------------------------------------------------------------ *)
(** ** C7: the sort by distance *)

Module SortProps.
Import DistanceCache Filters DistanceSort.
Local Open Scope list_scope.





Lemma filter_none {A} (f : A -> bool) (l : list A) :
  (forall p, In p l -> f p = false) -> filter f l = [].
Proof.
  induction l as [|a l IH]; intros H; [reflexivity|].
  cbn [filter]. rewrite (H a (or_introl eq_refl)). apply IH. intros p Hp. apply H. now right.
Qed.







End SortProps.

(* ------------------------------------------------------------------ *)
(** ** C8: grouping by exact coordinate strings *)

Module GroupingProps.
Import Grouping CacheKeys.
Local Open Scope list_scope.

Definition same_key (k : string) (s : station) : bool := String.eqb (coordKey s) k.

(** The groups built from the stations [P] processed so far. *)
Definition GInv (P : list station) (m : @JSMap.t (list station)) : Prop :=
  NoDup (keys m) /\
  (forall k g, In (k, g) m -> g = filter (same_key k) P) /\
  (forall s, In s P -> In (coordKey s) (keys m)).

Lemma has_In {V} k (m : @JSMap.t V) : JSMap.has k m = true <-> In k (keys m).
Proof.
  induction m as [|[k1 v1] m IH]; simpl; [split; [discriminate|tauto]|].
  rewrite orb_true_iff, IH, String.eqb_eq. simpl. split; intros [H|H]; auto.
Qed.

Lemma In_keys {V} k v (m : @JSMap.t V) : In (k, v) m -> In k (keys m).
Proof. intros H. unfold keys. now apply (in_map fst) in H. Qed.

Lemma get_In' {V} (k : string) (v : V) (m : @JSMap.t V) :
  JSMap.get k m = Some v -> In (k, v) m.
Proof.
  induction m as [|[k1 v1] m IH]; simpl; [discriminate|].
  destruct (String.eqb k1 k) eqn:E.
  - apply String.eqb_eq in E. intros H. injection H as ->. subst. now left.
  - intros H. right. now apply IH.
Qed.

Lemma get_has {V} (k : string) (m : @JSMap.t V) :
  JSMap.has k m = true -> exists v, JSMap.get k m = Some v.
Proof.
  induction m as [|[k1 v1] m IH]; simpl; [discriminate|].
  destruct (String.eqb k1 k); simpl; [eauto|exact IH].
Qed.

(** Under distinct keys, [replace] changes exactly the entry of [k]. *)
Lemma replace_In_iff {V} k v (m : @JSMap.t V) k' v' :
  NoDup (keys m) -> In k (keys m) ->
  In (k', v') (JSMap.replace k v m) <-> (k' = k /\ v' = v) \/ (k' <> k /\ In (k', v') m).
Proof.
  induction m as [|[k1 v1] m IH]; intros N Hk; simpl in *; [contradiction|].
  inversion N as [|? ? N1 N2]; subst.
  destruct (String.eqb k1 k) eqn:E.
  - apply String.eqb_eq in E. subst k1. simpl. split.
    + intros [H|H]; [injection H as -> ->; now left|].
      right. split; [|now right]. intros ->. apply N1. now apply In_keys in H.
    + intros [[-> ->]|[H1 [H2|H2]]]; [now left| |now right].
      injection H2 as ->. contradiction.
  - apply String.eqb_neq in E. destruct Hk as [Hk|Hk]; [contradiction|].
    simpl. rewrite (IH N2 Hk). split.
    + intros [H|[H|H]]; [|now left|right; split; [apply H|now right; apply H]].
      injection H as -> ->. right. split; [exact E|now left].
    + intros [H|[H1 [H2|H2]]]; [now right; left|now left|now right; right].
Qed.

Lemma add_station_inv P m s :
  GInv P m -> GInv (P ++ [s]) (add_station m s).
Proof.
  intros [N [G C]]. unfold add_station.
  set (k := coordKey s).
  assert (FS : forall k', filter (same_key k') (P ++ [s]) =
                          filter (same_key k') P ++ (if String.eqb k k' then [s] else [])).
  { intros k'. rewrite filter_app. reflexivity. }
  destruct (JSMap.has k m) eqn:H.
  - destruct (get_has k m H) as [g Hg]. rewrite Hg.
    apply has_In in H.
    split; [now rewrite replace_keys|]. split.
    + intros k' g' I. apply (replace_In_iff k _ m k' g' N H) in I.
      destruct I as [[-> ->]|[Ne I]].
      * rewrite FS, String.eqb_refl. f_equal. apply G. now apply get_In'.
      * rewrite FS. apply String.eqb_neq in Ne. rewrite String.eqb_sym, Ne, app_nil_r.
        now apply G.
    + intros t It. rewrite replace_keys. apply in_app_or in It as [It|[<-|[]]]; [now apply C|exact H].
  - unfold JSMap.set. rewrite H.
    assert (Nk : ~ In k (keys m)) by (intros Hk; apply has_In in Hk; congruence).
    split; [|split].
    + unfold keys. rewrite map_app. simpl. apply NoDup_app; auto.
      * repeat constructor. intros [].
      * intros x Hx [<-|[]]. contradiction.
    + intros k' g' I. apply in_app_or in I as [I|[E|[]]].
      * rewrite FS. assert (Ne : k <> k').
        { intros <-. apply Nk. now apply In_keys in I. }
        apply String.eqb_neq in Ne. rewrite Ne, app_nil_r. now apply G.
      * injection E as <- <-. rewrite FS, String.eqb_refl.
        rewrite SortProps.filter_none; [reflexivity|].
        intros t It. unfold same_key. apply String.eqb_neq. intros Ek.
        apply Nk. rewrite <- Ek. now apply C.
    + intros t It. unfold keys. rewrite map_app. apply in_or_app.
      apply in_app_or in It as [It|[<-|[]]]; [left; now apply C|right; now left].
Qed.

Lemma fold_inv l P m :
  GInv P m -> GInv (P ++ l) (fold_left add_station l m).
Proof.
  revert P m; induction l as [|s l IH]; intros P m H; simpl.
  - now rewrite app_nil_r.
  - replace (P ++ s :: l) with ((P ++ [s]) ++ l) by (rewrite <- app_assoc; reflexivity).
    apply IH. now apply add_station_inv.
Qed.

(** C8: the groups are keyed by the exact [`${latitude},${longitude}`]
    strings, without duplicate keys; each group is the sub-list, in input
    order, of the stations with its key; every station lies in the group of
    its own key and in no other; two stations share a group exactly when
    their keys are equal. On the spec's example, (13.7563, 100.5018) twice
    gives one key, (13.75630001, 100.5018) another. *)
Theorem group_by_exact_key (stations : list station) :
  let G := groupStationsByCoordinates stations in
  NoDup (keys G) /\
  (forall k g, In (k, g) G -> g = filter (same_key k) stations) /\
  (forall s, In s stations -> exists g, In (coordKey s, g) G /\ In s g) /\
  (forall s k g, In (k, g) G -> In s g -> k = coordKey s) /\
  (forall s t, In s stations -> In t stations ->
     ((exists k g, In (k, g) G /\ In s g /\ In t g) <-> coordKey s = coordKey t)) /\
  (forall s t, latitude s = lat_13_7563 -> longitude s = lon_100_5018 ->
     latitude t = lat_13_7563 -> longitude t = lon_100_5018 -> coordKey s = coordKey t) /\
  (forall s t, latitude s = lat_13_7563 -> longitude s = lon_100_5018 ->
     latitude t = lat_13_75630001 -> longitude t = lon_100_5018 -> coordKey s <> coordKey t).
Proof.
  intros G.
  assert (I : GInv stations G).
  { apply (fold_inv stations [] []). split; [constructor|]. split; intros; contradiction. }
  destruct I as [N [Gk C]].
  assert (Own : forall s k g, In (k, g) G -> In s g -> k = coordKey s).
  { intros s k g H Hs. rewrite (Gk k g H) in Hs. apply filter_In in Hs as [_ Hs].
    unfold same_key in Hs. apply String.eqb_eq in Hs. now symmetry. }
  assert (Ex : forall s, In s stations -> exists g, In (coordKey s, g) G /\ In s g).
  { intros s Hs. pose proof (C s Hs) as Hk. unfold keys in Hk.
    apply in_map_iff in Hk as [[k g] [Ek Hkg]]. simpl in Ek. subst k.
    exists g. split; [exact Hkg|]. rewrite (Gk _ g Hkg). apply filter_In.
    split; [exact Hs|]. apply String.eqb_refl. }
  split; [exact N|]. split; [exact Gk|]. split; [exact Ex|]. split; [exact Own|].
  split; [|split].
  - intros s t Hs Ht. split.
    + intros [k [g [H [Is It]]]]. rewrite <- (Own s k g H Is). exact (Own t k g H It).
    + intros E. destruct (Ex s Hs) as [g [H Is]]. exists (coordKey s), g.
      split; [exact H|]. split; [exact Is|]. rewrite (Gk _ g H). apply filter_In.
      split; [exact Ht|]. unfold same_key. rewrite E. apply String.eqb_refl.
  - intros s t A B Ct D. unfold coordKey. now rewrite A, B, Ct, D.
  - intros s t A B Ct D. unfold coordKey. rewrite A, B, Ct, D. vm_compute. discriminate.
Qed.

End GroupingProps.

(* ------------------------------------------------------------------ *)
(** ** C9: the icon precedence *)

Module IconProps.
Import MapIcon.

(** C9 (as stated, refuted): a station whose [onAir] is undefined, with
    [inspection68] equal to ['ตรวจแล้ว'], gets the off-air grey pin, while
    the claim's precedence (off-air = [onAir] false) gives the green pin. *)
Lemma icon_onAir_unset_is_grey :
  getStationIcon station_onAir_unset = greyStationIcon /\
  spec_icon_category station_onAir_unset = greenStationIcon.
Proof. split; reflexivity. Qed.

(** C9 (amended): the icon is one of four categories taken in this order:
    [submitRequest] = ['ไม่ยื่น'] gives black; otherwise [onAir] not true
    (false or undefined) gives grey; otherwise [inspection68] =
    ['ตรวจแล้ว'] gives green; otherwise red. *)
Theorem icon_precedence (s : station) :
  (submitRequest s = Some NOT_SUBMITTED -> getStationIcon s = blackStationIcon) /\
  (submitRequest s <> Some NOT_SUBMITTED -> onAir s <> Some true ->
     getStationIcon s = greyStationIcon) /\
  (submitRequest s <> Some NOT_SUBMITTED -> onAir s = Some true ->
     inspection68 s = Some INSPECTED -> getStationIcon s = greenStationIcon) /\
  (submitRequest s <> Some NOT_SUBMITTED -> onAir s = Some true ->
     inspection68 s <> Some INSPECTED -> getStationIcon s = redStationIcon).
Proof.
  assert (NS : match submitRequest s with
               | Some w => String.eqb w NOT_SUBMITTED | None => false end = true
               <-> submitRequest s = Some NOT_SUBMITTED).
  { destruct (submitRequest s); [rewrite String.eqb_eq|]; split; congruence. }
  assert (IN : match inspection68 s with
               | Some w => String.eqb w INSPECTED | None => false end = true
               <-> inspection68 s = Some INSPECTED).
  { destruct (inspection68 s); [rewrite String.eqb_eq|]; split; congruence. }
  unfold getStationIcon. repeat split.
  - intros H. apply NS in H. now rewrite H.
  - intros H1 H2. destruct (match submitRequest s with
      | Some w => String.eqb w NOT_SUBMITTED | None => false end);
      [exfalso; now apply H1, NS|].
    destruct (onAir s) as [[|]|]; [contradiction|reflexivity|reflexivity].
  - intros H1 H2 H3. destruct (match submitRequest s with
      | Some w => String.eqb w NOT_SUBMITTED | None => false end);
      [exfalso; now apply H1, NS|].
    rewrite H2. simpl. apply IN in H3. now rewrite H3.
  - intros H1 H2 H3. destruct (match submitRequest s with
      | Some w => String.eqb w NOT_SUBMITTED | None => false end);
      [exfalso; now apply H1, NS|].
    rewrite H2. simpl.
    destruct (match inspection68 s with
      | Some w => String.eqb w INSPECTED | None => false end); [exfalso; now apply H3, IN|].
    destruct (match inspection68 s with
      | Some w => String.eqb w NOT_INSPECTED | None => false end); reflexivity.
Qed.

End IconProps.

(* ------------------------------------------------------------------ *)
(** ** C4 and C10: the PATCH handlers *)

Module RouteProps.
Import Route.
Local Open Scope list_scope.

(** C4 (as stated, refuted): the Supabase snapshot of the endpoint sends
    an inspection update without any [date_inspected]. *)
Lemma supabase_patch_no_date :
  patch_supabase "1" (Some body_inspected) = Update (Fin 1) [("inspection_68", JStr INSPECTED)] /\
  ~ In "date_inspected" (map fst [("inspection_68", JStr INSPECTED)]).
Proof. split; [reflexivity|]. simpl. intros [H|[]]. discriminate. Qed.

(** C4 (amended): in the Prisma snapshot, for a valid id and a non-null
    body carrying [inspection68 = v], the store update sets [inspection_68]
    to [true] and [date_inspected] to the current UTC date when [v] is
    ['ตรวจแล้ว'] or [true], and to [false] and [null] for any other [v]; the
    Supabase snapshot writes only [on_air] and [inspection_68], never
    [date_inspected]. *)
Theorem patch_inspection_date :
  (forall now id sid b v, parseInt id = Some sid -> b <> JNull ->
     get_field b "inspection68" = Some v ->
     exists ups, patch_prisma now id (Some b) = Update sid ups /\
       ((v = JStr INSPECTED \/ v = JBool true) ->
          In ("inspection_68", JBool true) ups /\ In ("date_inspected", JStr (before_T now)) ups) /\
       ((v <> JStr INSPECTED /\ v <> JBool true) ->
          In ("inspection_68", JBool false) ups /\ In ("date_inspected", JNull) ups)) /\
  (forall id body sid ups, patch_supabase id body = Update sid ups ->
     ~ In "date_inspected" (map fst ups) /\
     (forall k v, In (k, v) ups -> k = "on_air" \/ k = "inspection_68")).
Proof.
  split.
  - intros now id sid b v P N F. unfold patch_prisma. rewrite P.
    destruct (is_null b) eqn:Nb; [destruct b; try discriminate; contradiction|].
    rewrite F. unfold prisma_updates.
    set (pre := (match get_field b "onAir" with Some v0 => [("on_air", v0)] | None => [] end ++
                 match get_field b "details" with Some v0 => [("details", v0)] | None => [] end)).
    set (ups := [("inspection_68", JBool (inspected_value v));
                 ("date_inspected", if inspected_value v then JStr (before_T now) else JNull)]).
    replace (match get_field b "onAir" with Some v0 => [("on_air", v0)] | None => [] end ++
             match get_field b "details" with Some v0 => [("details", v0)] | None => [] end ++ ups)
      with (pre ++ ups) by (unfold pre; now rewrite app_assoc).
    unfold respond_updates.
    assert (L : (length (pre ++ ups) =? 0)%nat = false)
      by (rewrite length_app; simpl; apply Nat.eqb_neq; lia).
    rewrite L. exists (pre ++ ups). split; [reflexivity|].
    split.
    + intros Hv. assert (T : inspected_value v = true).
      { destruct Hv as [->| ->]; [apply String.eqb_refl|reflexivity]. }
      unfold ups. rewrite T. split; apply in_or_app; right; simpl; auto.
    + intros [H1 H2]. assert (T : inspected_value v = false).
      { destruct v as [| [|] | | w | |]; try reflexivity; try contradiction.
        apply String.eqb_neq. intros ->. contradiction. }
      unfold ups. rewrite T. split; apply in_or_app; right; simpl; auto.
  - intros id body sid ups H. unfold patch_supabase in H.
    destruct (parseInt id); [|discriminate].
    destruct body as [b|]; [|discriminate].
    destruct (is_null b); [discriminate|].
    unfold respond_updates, supabase_updates in H.
    destruct (get_field b "onAir"), (get_field b "inspection68"); simpl in H;
      try discriminate H; injection H as <- <-;
      (split; [simpl; intuition discriminate|]);
      intros k v Hin; simpl in Hin; decompose [or] Hin; try contradiction;
      match goal with E : (_, _) = (k, v) |- _ => injection E as <- <- end; tauto.
Qed.

(** C10 (as stated, refuted): a body with none of the recognized fields
    does not always get 400 'No valid fields to update': a [null] body
    (which has no field at all) makes the destructuring throw and gets
    500, and a non-numeric id gets 400 'Invalid station ID' first. *)
Lemma patch_no_fields_other_answers :
  (forall k, get_field JNull k = None) /\
  patch_prisma now_sample "7" (Some JNull) = Respond 500 "Internal server error" /\
  patch_supabase "7" (Some JNull) = Respond 500 "Internal server error" /\
  patch_prisma now_sample "abc" (Some body_unknown_only) = Respond 400 "Invalid station ID" /\
  patch_supabase "abc" (Some body_unknown_only) = Respond 400 "Invalid station ID".
Proof. repeat split; reflexivity. Qed.

(** C10 (amended): in both snapshots, for an id that [parseInt] reads as a
    number and a parsed body other than [null], a body carrying none of the
    recognized fields ([onAir], [inspection68], [details]; [onAir] and
    [inspection68] in the Supabase snapshot) gets 400 'No valid fields to
    update' and no store update; the outcome depends on the body only
    through the recognized fields; and a store update writes a non-empty
    set of columns, all among [on_air], [details], [inspection_68],
    [date_inspected] ([on_air], [inspection_68] for Supabase). A
    non-numeric id gets 400 'Invalid station ID' whatever the body, and
    for a numeric id a [null] body gets 500 'Internal server error'. *)
Theorem patch_no_recognized_field :
  (forall now id body, parseInt id = None ->
     patch_prisma now id body = Respond 400 "Invalid station ID" /\
     patch_supabase id body = Respond 400 "Invalid station ID") /\
  (forall now id sid b, parseInt id = Some sid -> b <> JNull ->
     get_field b "onAir" = None -> get_field b "inspection68" = None ->
     get_field b "details" = None ->
     patch_prisma now id (Some b) = Respond 400 "No valid fields to update") /\
  (forall id sid b, parseInt id = Some sid -> b <> JNull ->
     get_field b "onAir" = None -> get_field b "inspection68" = None ->
     patch_supabase id (Some b) = Respond 400 "No valid fields to update") /\
  (forall now id b b', b <> JNull -> b' <> JNull ->
     (forall k, In k ["onAir"; "inspection68"; "details"] -> get_field b k = get_field b' k) ->
     patch_prisma now id (Some b) = patch_prisma now id (Some b')) /\
  (forall id b b', b <> JNull -> b' <> JNull ->
     (forall k, In k ["onAir"; "inspection68"] -> get_field b k = get_field b' k) ->
     patch_supabase id (Some b) = patch_supabase id (Some b')) /\
  (forall now id body sid ups, patch_prisma now id body = Update sid ups ->
     ups <> [] /\ forall k v, In (k, v) ups ->
       In k ["on_air"; "details"; "inspection_68"; "date_inspected"]) /\
  (forall id body sid ups, patch_supabase id body = Update sid ups ->
     ups <> [] /\ forall k v, In (k, v) ups -> In k ["on_air"; "inspection_68"]) /\
  (forall now id sid, parseInt id = Some sid ->
     patch_prisma now id (Some JNull) = Respond 500 "Internal server error" /\
     patch_supabase id (Some JNull) = Respond 500 "Internal server error").
Proof.
  assert (NN : forall b, b <> JNull -> is_null b = false)
    by (intros b Hb; destruct b; [contradiction|reflexivity..]).
  assert (RU : forall n sid ups ups', respond_updates n ups = Update sid ups' ->
                 sid = n /\ ups' = ups /\ ups <> []).
  { intros n sid ups ups' H. unfold respond_updates in H.
    destruct ups; simpl in H; [discriminate|]. injection H as E1 E2. subst. repeat split; congruence. }
  split; [|split; [|split; [|split; [|split; [|split; [|split]]]]]].
  - intros now id body P. unfold patch_prisma, patch_supabase. rewrite P. split; reflexivity.
  - intros now id sid b P Hb H1 H2 H3. unfold patch_prisma.
    rewrite P, (NN b Hb), H1, H2, H3. reflexivity.
  - intros id sid b P Hb H1 H2. unfold patch_supabase.
    rewrite P, (NN b Hb), H1, H2. reflexivity.
  - intros now id b b' Hb Hb' E. unfold patch_prisma.
    destruct (parseInt id); [|reflexivity].
    rewrite (NN b Hb), (NN b' Hb').
    rewrite (E "onAir"), (E "inspection68"), (E "details") by (simpl; tauto).
    reflexivity.
  - intros id b b' Hb Hb' E. unfold patch_supabase.
    destruct (parseInt id); [|reflexivity].
    rewrite (NN b Hb), (NN b' Hb').
    rewrite (E "onAir"), (E "inspection68") by (simpl; tauto).
    reflexivity.
  - intros now id body sid ups H. unfold patch_prisma in H.
    destruct (parseInt id) as [n|]; [|discriminate].
    destruct body as [b|]; [|discriminate].
    destruct (is_null b); [discriminate|].
    apply RU in H as [-> [-> Hne]]. split; [exact Hne|].
    intros k v Hin. unfold prisma_updates in Hin.
    repeat rewrite in_app_iff in Hin.
    destruct (get_field b "onAir"), (get_field b "details"), (get_field b "inspection68");
      simpl in Hin; intuition (try congruence);
      match goal with E : (_, _) = (k, v) |- _ => injection E as <- <- end; simpl; tauto.
  - intros id body sid ups H. unfold patch_supabase in H.
    destruct (parseInt id) as [n|]; [|discriminate].
    destruct body as [b|]; [|discriminate].
    destruct (is_null b); [discriminate|].
    apply RU in H as [-> [-> Hne]]. split; [exact Hne|].
    intros k v Hin. unfold supabase_updates in Hin.
    rewrite in_app_iff in Hin.
    destruct (get_field b "onAir"), (get_field b "inspection68");
      simpl in Hin; intuition (try congruence);
      match goal with E : (_, _) = (k, v) |- _ => injection E as <- <- end; simpl; tauto.
  - intros now id sid P. unfold patch_prisma, patch_supabase. rewrite P. split; reflexivity.
Qed.

End RouteProps.

Module UpdateFlowProps.
Import UpdateFlow.

Lemma spread_reflects (s : station) (u : partial) : reflects u (spread s u).
Proof.
  unfold reflects, spread, pick; simpl.
  repeat split; intros v E; rewrite E; reflexivity.
Qed.

Lemma in_map_stations (sid : station_id) (u : partial) (l : list station) (s : station) :
  In s (map_stations sid (fun x => spread x u) l) -> id_eqb (id s) sid = true ->
  reflects u s.
Proof.
  unfold map_stations. intros Hin Hid. apply in_map_iff in Hin as [x [Ex _]].
  destruct (id_eqb (id x) sid) eqn:Hx; subst s.
  - apply spread_reflects.
  - congruence.
Qed.

(** C3: when the station is in the list the handler closed over, the
    synchronous part of [handleUpdateStation] (before the request settles)
    already sends the request and gives every station with that id, in the
    list and in the selection, the values of the update; and a failed
    request (network error, non-2xx status, unreadable 2xx body) leaves
    whatever state it finds untouched, so the optimistic values stay. *)
Theorem optimistic_update_not_rolled_back (closure : list station) (st : ui)
    (sid : station_id) (u : partial) :
  (exists s, In s closure /\ id_eqb (id s) sid = true) ->
  let r := handleUpdateStation closure st sid u in
  (exists req, snd r = Some req /\ req_body req = apiUpdates u) /\
  (forall s, In s (stations st) -> id_eqb (id s) sid = true ->
     In (spread s u) (stations (fst r))) /\
  (forall s, In s (stations (fst r)) -> id_eqb (id s) sid = true -> reflects u s) /\
  (forall p, selected st = Some p -> id_eqb (id p) sid = true ->
     selected (fst r) = Some (spread p u)) /\
  (forall p, selected (fst r) = Some p -> id_eqb (id p) sid = true -> reflects u p) /\
  (forall resp st', failed resp = true -> on_response sid resp st' = st').
Proof.
  intros [s0 [Hin0 Hid0]] r. unfold r, handleUpdateStation.
  destruct (find (fun s => id_eqb (id s) sid) closure) as [s1|] eqn:F.
  2:{ pose proof (find_none _ _ F s0 Hin0) as C. simpl in C. congruence. }
  simpl. split; [|split; [|split; [|split; [|split]]]].
  - eexists; split; reflexivity.
  - intros s Hs Hid. unfold map_stations. apply in_map_iff.
    exists s. rewrite Hid. split; [reflexivity|exact Hs].
  - intros s Hs Hid. exact (in_map_stations sid u (stations st) s Hs Hid).
  - intros p Hp Hid. unfold map_selected. rewrite Hp, Hid. reflexivity.
  - intros p Hp Hid. unfold map_selected in Hp.
    destruct (selected st) as [q|]; [|discriminate].
    destruct (id_eqb (id q) sid) eqn:Hq; injection Hp as <-.
    + apply spread_reflects.
    + congruence.
  - intros resp st' Hf. destruct resp; simpl in Hf; try discriminate; reflexivity.
Qed.

End UpdateFlowProps.

Module Witnesses.

(** Toggling the selected station 1 off air in [ui_sample], then a 503. *)
Lemma optimistic_update_not_rolled_back_witness :
  (exists s, In s [station_onAir_unset] /\ id_eqb (id s) (IdNum 1) = true) /\
  UpdateFlow.on_response (IdNum 1) (UpdateFlow.NotOk 503)
    (fst (UpdateFlow.handleUpdateStation [station_onAir_unset] ui_sample (IdNum 1) toggle_off))
  = fst (UpdateFlow.handleUpdateStation [station_onAir_unset] ui_sample (IdNum 1) toggle_off).
Proof.
  assert (H : exists s, In s [station_onAir_unset] /\ id_eqb (id s) (IdNum 1) = true)
    by (exists station_onAir_unset; split; [left; reflexivity | reflexivity]).
  split; [exact H|].
  apply (UpdateFlowProps.optimistic_update_not_rolled_back
           [station_onAir_unset] ui_sample (IdNum 1) toggle_off H).
  reflexivity.
Defined.


End Witnesses.

Module PipelineProps.
Import Filters Pipeline CityFilter.

Lemma apply_opt_filter (p : option (station -> bool)) (l : list station) :
  apply_opt p l = filter (fun s => match p with Some q => q s | None => true end) l.
Proof.
  destruct p as [q|]; [reflexivity|].
  induction l as [|s l IH]; simpl; [reflexivity|now rewrite <- IH].
Qed.

Lemma filter_filter {A} (p q : A -> bool) (l : list A) :
  filter p (filter q l) = filter (fun x => q x && p x) l.
Proof.
  induction l as [|x l IH]; simpl; [reflexivity|].
  destruct (q x); simpl; [destruct (p x); simpl; now rewrite IH|exact IH].
Qed.

(** The six stages of [filteredStations] keep exactly the stations that
    satisfy every active predicate, in input order; with the filter state
    [{}] that [clearFilters] sets, every station is kept. *)
Theorem filteredStations_single_pass (f : filterType) (l : list station) :
  filteredStations f l = filter (keep f) l /\
  (forall l', filteredStations noFilters l' = l').
Proof.
  split.
  - destruct l as [|s l]; [reflexivity|].
    unfold filteredStations. repeat rewrite apply_opt_filter.
    repeat rewrite filter_filter.
    apply filter_ext. intros x. unfold keep, active_preds.
    destruct (city_pred f), (province_pred f), (inspection_pred f), (onAir_pred f),
      (submitRequest_pred f), (search_pred f); simpl;
      repeat rewrite andb_true_r; repeat rewrite andb_assoc; reflexivity.
  - intros l'. destruct l'; reflexivity.
Qed.

End PipelineProps.

Module SetProps.
Import JSArray.
Local Open Scope list_scope.

Section FromSet.
Context {A : Type} (eqb : A -> A -> bool) (eqb_spec : forall a b, eqb a b = true <-> a = b).

Lemma existsb_eqb (x : A) (l : list A) : existsb (eqb x) l = true <-> In x l.
Proof.
  rewrite existsb_exists. split.
  - intros [y [Hy E]]. apply eqb_spec in E. now subst.
  - intros H. exists x. split; [exact H|]. now apply eqb_spec.
Qed.

Lemma from_set_acc (xs acc : list A) :
  NoDup acc ->
  NoDup (fold_left (set_add eqb) xs acc) /\
  (forall x, In x (fold_left (set_add eqb) xs acc) <-> In x acc \/ In x xs).
Proof.
  revert acc. induction xs as [|y xs IH]; intros acc N; simpl.
  - split; [exact N|]. tauto.
  - destruct (existsb (eqb y) acc) eqn:E.
    + assert (S : set_add eqb acc y = acc) by (unfold set_add; now rewrite E).
      rewrite S. apply existsb_eqb in E. destruct (IH acc N) as [N' M]. split; [exact N'|].
      intros x. rewrite M. split; [tauto|]. intros [H|[<-|H]]; tauto.
    + assert (S : set_add eqb acc y = acc ++ [y]) by (unfold set_add; now rewrite E).
      rewrite S. assert (Ny : ~ In y acc) by (intros H; apply existsb_eqb in H; congruence).
      assert (N1 : NoDup (acc ++ [y])).
      { apply NoDup_app; [exact N|repeat constructor; intros []|].
        intros x Hx [<-|[]]. contradiction. }
      destruct (IH _ N1) as [N' M]. split; [exact N'|].
      intros x. rewrite M, in_app_iff. simpl. tauto.
Qed.

Lemma from_set_spec (xs : list A) :
  NoDup (array_from_set eqb xs) /\ (forall x, In x (array_from_set eqb xs) <-> In x xs).
Proof.
  destruct (from_set_acc xs [] (NoDup_nil _)) as [N M]. split; [exact N|].
  intros x. unfold array_from_set. rewrite M. simpl. tauto.
Qed.

Lemma filter_from_set_acc (p : A -> bool) (xs acc : list A) :
  filter p (fold_left (set_add eqb) xs acc) = fold_left (set_add eqb) (filter p xs) (filter p acc).
Proof.
  revert acc. induction xs as [|y xs IH]; intros acc; simpl; [reflexivity|].
  rewrite IH. destruct (p y) eqn:Py; simpl.
  - f_equal. unfold set_add.
    assert (E : existsb (eqb y) acc = existsb (eqb y) (filter p acc)).
    { apply eq_true_iff_eq. rewrite !existsb_eqb, filter_In. tauto. }
    rewrite <- E. destruct (existsb (eqb y) acc); [reflexivity|].
    rewrite filter_app. simpl. now rewrite Py.
  - f_equal. unfold set_add. destruct (existsb (eqb y) acc); [reflexivity|].
    rewrite filter_app. simpl. rewrite Py. apply app_nil_r.
Qed.

End FromSet.

Lemma opt_eqb_spec (a b : option string) : opt_eqb a b = true <-> a = b.
Proof.
  destruct a as [x|], b as [y|]; simpl; try (split; congruence).
  rewrite String.eqb_eq. split; congruence.
Qed.

End SetProps.

Module ServiceProps.
Import JSArray Service SetProps.

(** The distinct-value lists ([fetchUniqueCities] and the like, and the
    lists [FMStationsFetcher] passes to the client): both ways of building
    them give the same list; it has no repeated value, no null and no empty
    string, and holds every other value of the column. *)
Theorem unique_values_spec (xs : list (option string)) :
  unique_values xs = fetcher_unique_values xs /\
  NoDup (unique_values xs) /\
  (forall c, In (Some c) (unique_values xs) <-> In (Some c) xs /\ c <> "") /\
  ~ In None (unique_values xs).
Proof.
  destruct (from_set_spec opt_eqb opt_eqb_spec xs) as [N M].
  assert (E : unique_values xs = fetcher_unique_values xs).
  { unfold unique_values, fetcher_unique_values, array_from_set.
    rewrite (filter_from_set_acc opt_eqb opt_eqb_spec). reflexivity. }
  split; [exact E|]. split; [|split].
  - unfold unique_values. now apply NoDup_filter.
  - intros c. unfold unique_values. rewrite filter_In, M. simpl.
    rewrite negb_true_iff, String.eqb_neq. tauto.
  - unfold unique_values. rewrite filter_In. simpl. intros [_ H]. discriminate.
Qed.

End ServiceProps.

Module CityFilterProps.
Import JSArray CityFilter SetProps Filters.

(** With a province [q] selected, the city list holds each city of a
    station of [q] once, and nothing else; and each city on it, chosen
    with [q], leaves at least one station through the filters. *)
Theorem city_options (stations : list station) (q : string) (initialCities : list string) :
  q <> "" ->
  let cities := useOptimizedCityFilter stations (Some q) initialCities in
  NoDup cities /\
  (forall c, In c cities <-> exists s, In s stations /\ state s = q /\ city s = c) /\
  (forall c, In c cities ->
     filteredStations {| f_onAir := None; f_city := Some c; f_province := Some q;
                         f_inspection := None; f_search := None; f_submitRequest := None |}
       stations <> []).
Proof.
  intros Hq cities.
  assert (T : truthy (Some q) = true)
    by (simpl; apply negb_true_iff, String.eqb_neq, Hq).
  assert (C : cities = array_from_set String.eqb
                (map city (filter (fun s => String.eqb (state s) q) stations)))
    by (unfold cities, useOptimizedCityFilter; now rewrite T).
  destruct (from_set_spec String.eqb String.eqb_eq
              (map city (filter (fun s => String.eqb (state s) q) stations))) as [N M].
  assert (Mem : forall c, In c cities <-> exists s, In s stations /\ state s = q /\ city s = c).
  { intros c. rewrite C, M, in_map_iff. split.
    - intros [s [<- Hs]]. apply filter_In in Hs as [Hs E]. apply String.eqb_eq in E. eauto.
    - intros [s [Hs [E <-]]]. exists s. split; [reflexivity|].
      apply filter_In. split; [exact Hs|]. now apply String.eqb_eq. }
  split; [now rewrite C|]. split; [exact Mem|].
  intros c Hc. apply Mem in Hc as [s [Hs [Es Ec]]].
  intros E. destruct stations as [|s0 l]; [contradiction|].
  match type of E with filteredStations ?F _ = [] =>
    assert (I : In s (filteredStations F (s0 :: l))) end.
  { unfold filteredStations. repeat rewrite PipelineProps.apply_opt_filter.
    repeat rewrite PipelineProps.filter_filter. apply filter_In. split; [exact Hs|].
    unfold city_pred, province_pred, inspection_pred, onAir_pred, submitRequest_pred,
      search_pred; simpl.
    destruct (String.eqb q ""), (String.eqb c ""); simpl;
      rewrite ?Es, ?Ec, ?String.eqb_refl; reflexivity. }
  rewrite E in I. contradiction.
Qed.

(** The effect that resets the city filter changes nothing but the city;
    afterwards a selected province and city always have a station in
    common; and running it again changes nothing, so it settles at once. *)
Theorem autoClearCity_consistent (stations : list station) (f : filterType) :
  let f' := autoClearCity stations f in
  (f_onAir f' = f_onAir f /\ f_province f' = f_province f /\
   f_inspection f' = f_inspection f /\ f_search f' = f_search f /\
   f_submitRequest f' = f_submitRequest f) /\
  (forall p c, f_province f' = Some p -> f_city f' = Some c -> p <> "" -> c <> "" ->
     exists s, In s stations /\ state s = p /\ city s = c) /\
  autoClearCity stations f' = f'.
Proof.
  intros f'. unfold f', autoClearCity.
  destruct f as [oa ci pr ins se sr]; simpl.
  destruct pr as [p|]; [|repeat split; intros; discriminate].
  destruct ci as [c|].
  2:{ rewrite andb_false_r. repeat split; intros; try discriminate.
      simpl. now rewrite andb_false_r. }
  simpl truthy.
  destruct (String.eqb p "") eqn:Ep; simpl.
  { repeat split; try reflexivity; try (simpl; now rewrite Ep).
    intros p' c' H1 H2 H3. injection H1 as <-.
    apply String.eqb_eq in Ep. contradiction. }
  destruct (String.eqb c "") eqn:Ec; simpl.
  { repeat split; try reflexivity; try (simpl; now rewrite Ep, Ec).
    intros p' c' H1 H2 H3 H4. injection H2 as <-.
    apply String.eqb_eq in Ec. contradiction. }
  destruct (existsb (fun s => String.eqb (state s) p && String.eqb (city s) c) stations) eqn:Ex.
  - repeat split; try reflexivity; try (simpl; now rewrite Ep, Ec, Ex).
    intros p' c' H1 H2 _ _. injection H1 as <-. injection H2 as <-.
    apply existsb_exists in Ex as [s [Hs E]]. apply andb_true_iff in E as [E1 E2].
    apply String.eqb_eq in E1, E2. eauto.
  - repeat split; try reflexivity; try (simpl; now rewrite Ep).
    intros p' c' _ H2 _ H4. injection H2 as <-. contradiction.
Qed.

End CityFilterProps.

Module DuplicatesProps.
Import Service Grouping CacheKeys GroupingProps.
Local Open Scope list_scope.

Definition has_dups (e : string * list station) : bool := (1 <? length (snd e))%nat.

Lemma NoDup_keys_filter {V} (p : string * V -> bool) (l : @JSMap.t V) :
  NoDup (keys l) -> NoDup (keys (filter p l)).
Proof.
  induction l as [|[k v] l IH]; simpl; [tauto|]. intros N. inversion N; subst.
  destruct (p (k, v)); simpl; [|now apply IH]. constructor; [|now apply IH].
  intros H. unfold keys in H. apply in_map_iff in H as [[k' v'] [E H]].
  simpl in E. subst k'. apply filter_In in H as [H _]. apply (in_map fst) in H.
  contradiction.
Qed.

Lemma fold_dups (l acc : @JSMap.t (list station)) :
  NoDup (keys (acc ++ l)) ->
  fold_left (fun acc e => if has_dups e then JSMap.set (fst e) (snd e) acc else acc) l acc
  = acc ++ filter has_dups l.
Proof.
  revert acc. induction l as [|[k g] l IH]; intros acc N; simpl; [now rewrite app_nil_r|].
  unfold keys in N. rewrite map_app in N. simpl in N.
  pose proof N as N0. apply NoDup_remove in N as [N Nk].
  destruct (has_dups (k, g)).
  - unfold JSMap.set.
    assert (H : JSMap.has k acc = false).
    { destruct (JSMap.has k acc) eqn:H; [|reflexivity]. apply has_In in H.
      exfalso. apply Nk. apply in_or_app. now left. }
    rewrite H. simpl. rewrite IH; [now rewrite <- app_assoc|].
    unfold keys. rewrite <- app_assoc. simpl. rewrite map_app. exact N0.
  - rewrite IH; [reflexivity|]. unfold keys. now rewrite map_app.
Qed.

(** [checkDuplicateCoordinates] reports, once per key, exactly the
    coordinate strings shared by two or more stations, each with all the
    stations at that key in input order. *)
Theorem checkDuplicateCoordinates_spec (stations : list station) :
  let D := checkDuplicateCoordinates stations in
  NoDup (keys D) /\
  (forall k g, In (k, g) D <-> g = filter (same_key k) stations /\ (2 <= length g)%nat).
Proof.
  intros D.
  assert (I : GInv stations (groupStationsByCoordinates stations)).
  { apply (fold_inv stations [] []). split; [constructor|]. split; intros; contradiction. }
  destruct I as [N [Gk C]].
  assert (E : D = filter has_dups (groupStationsByCoordinates stations)).
  { unfold D, checkDuplicateCoordinates. apply (fold_dups _ []). exact N. }
  rewrite E. split; [now apply NoDup_keys_filter|].
  intros k g. rewrite filter_In. unfold has_dups. simpl. rewrite Nat.ltb_lt. split.
  - intros [H L]. split; [now apply Gk|lia].
  - intros [-> L]. destruct (filter (same_key k) stations) as [|s r] eqn:F; [simpl in L; lia|].
    assert (Hs : In s (filter (same_key k) stations)) by (rewrite F; now left).
    apply filter_In in Hs as [Hs Ks]. unfold same_key in Ks. apply String.eqb_eq in Ks.
    pose proof (C s Hs) as Hk. rewrite Ks in Hk. unfold keys in Hk.
    apply in_map_iff in Hk as [[k' g'] [Ek Hg]]. simpl in Ek. subst k'.
    split; [|simpl in *; lia]. rewrite <- F. now rewrite <- (Gk k g' Hg).
Qed.

End DuplicatesProps.

Module ConvertProps.
Import Service MapIcon Filters.

(** [convertToFMStation] always sets [submitRequest], and to 'ไม่ยื่น'
    exactly when the column holds 'ไม่ยื่น' or [true]; [unwanted] is true
    exactly for 'true' and [true]; [details] and [dateInspected] stay
    undefined. The map icon of a converted row follows from the columns:
    black for 'ไม่ยื่น' or [true], else grey when [on_air] is false, else
    green when [inspection_68] is 'ตรวจแล้ว', else red. *)
Theorem convertToFMStation_status (row : FMStationRow) :
  let s := convertToFMStation row in
  let ns := submit_a_request row = SBStr NOT_SUBMITTED \/ submit_a_request row = SBBool true in
  (exists w, submitRequest s = Some w) /\
  (is_not_submitted s = true <-> ns) /\
  (Station.unwanted s = Some true <-> unwanted row = SBStr "true" \/ unwanted row = SBBool true) /\
  details s = None /\ dateInspected s = None /\
  (getStationIcon s = blackStationIcon <-> ns) /\
  (getStationIcon s = greyStationIcon <-> ~ ns /\ on_air row = false) /\
  (getStationIcon s = greenStationIcon <->
     ~ ns /\ on_air row = true /\ inspection_68 row = Some INSPECTED) /\
  (getStationIcon s = redStationIcon <->
     ~ ns /\ on_air row = true /\ inspection_68 row <> Some INSPECTED).
Proof.
  intros s ns.
  assert (NS : is_not_submitted s = true <-> ns).
  { unfold ns, s, is_not_submitted, convertToFMStation. simpl.
    destruct (submit_a_request row) as [w|[|]]; simpl.
    - rewrite String.eqb_eq. split; [intros ->; now left|].
      intros [H|H]; [now injection H|discriminate].
    - split; [now right|reflexivity].
    - split; [discriminate|intros [H|H]; discriminate]. }
  assert (Ic : forall i, getStationIcon s = i <->
     (if is_not_submitted s then blackStationIcon
      else if negb (on_air row) then greyStationIcon
      else if match inspection_68 row with Some w => String.eqb w INSPECTED | None => false end
           then greenStationIcon else redStationIcon) = i).
  { intros i. unfold getStationIcon, is_not_submitted, s, convertToFMStation. simpl.
    destruct (match submit_a_request row with SBStr s0 => s0 | SBBool b => if b then NOT_SUBMITTED else "" end =? NOT_SUBMITTED)%string;
      [reflexivity|].
    destruct (on_air row); [|reflexivity]. simpl.
    destruct (inspection_68 row) as [w|]; [|reflexivity].
    destruct (w =? INSPECTED)%string; [reflexivity|]. destruct (w =? NOT_INSPECTED)%string; reflexivity. }
  assert (IN : match inspection_68 row with Some w => String.eqb w INSPECTED | None => false end = true
               <-> inspection_68 row = Some INSPECTED).
  { destruct (inspection_68 row) as [w|]; [|split; discriminate].
    rewrite String.eqb_eq. split; congruence. }
  split; [|split; [exact NS|split; [|split; [reflexivity|split; [reflexivity|]]]]].
  - eexists. reflexivity.
  - unfold s, convertToFMStation. simpl.
    destruct (unwanted row) as [w|[|]]; simpl.
    + destruct (String.eqb w "true") eqn:E.
      * apply String.eqb_eq in E. subst w. split; [now left|reflexivity].
      * split; [discriminate|]. intros [H|H]; [|discriminate].
        injection H as ->. discriminate.
    + split; [now right|reflexivity].
    + split; [discriminate|intros [H|H]; discriminate].
  - rewrite !Ic. destruct (is_not_submitted s) eqn:Ens.
    + assert (Hns : ns) by (apply NS; reflexivity). clear - Hns. intuition discriminate.
    + assert (Hns : ~ ns) by (intros H; apply NS in H; congruence).
      destruct (on_air row); simpl.
      * clear IN. destruct (inspection_68 row) as [w|] eqn:Iw.
        -- destruct (String.eqb w INSPECTED) eqn:Ew.
           ++ apply String.eqb_eq in Ew. subst w. clear - Hns.
              intuition (try discriminate; try congruence).
           ++ assert (Ni : Some w <> Some INSPECTED)
                by (intros E; injection E as ->; now rewrite String.eqb_refl in Ew).
              clear - Hns Ni. intuition (try discriminate; try congruence).
        -- clear - Hns. intuition (try discriminate; try congruence).
      * clear - Hns. intuition (try discriminate; try congruence).
Qed.

End ConvertProps.

Module CacheMoreProps.
Import DistanceCache CacheKeys GroupingProps.
Local Open Scope list_scope.

Lemma get_replace {V} (k : string) (v : V) (m : @JSMap.t V) :
  JSMap.has k m = true -> JSMap.get k (JSMap.replace k v m) = Some v.
Proof.
  induction m as [|[k1 v1] m IH]; simpl; [discriminate|].
  destruct (String.eqb k1 k) eqn:E; simpl; rewrite E; [reflexivity|exact IH].
Qed.

Lemma get_append_new {V} (k : string) (v : V) (m : @JSMap.t V) :
  JSMap.has k m = false -> JSMap.get k (m ++ [(k, v)]) = Some v.
Proof.
  induction m as [|[k1 v1] m IH]; simpl.
  - now rewrite String.eqb_refl.
  - destruct (String.eqb k1 k); simpl; [discriminate|exact IH].
Qed.

Lemma get_set {V} (k : string) (v : V) (m : @JSMap.t V) :
  JSMap.get k (JSMap.set k v m) = Some v.
Proof.
  unfold JSMap.set. destruct (JSMap.has k m) eqn:H;
    [now apply get_replace|now apply get_append_new].
Qed.

Lemma get_none_has {V} (k : string) (m : @JSMap.t V) :
  JSMap.get k m = None <-> JSMap.has k m = false.
Proof.
  induction m as [|[k1 v1] m IH]; simpl; [tauto|].
  destruct (String.eqb k1 k); simpl; [split; discriminate|exact IH].
Qed.

Lemma set_nodup {V} (k : string) (v : V) (m : @JSMap.t V) :
  NoDup (keys m) -> NoDup (keys (JSMap.set k v m)).
Proof.
  intros N. unfold JSMap.set. destruct (JSMap.has k m) eqn:H.
  - now rewrite replace_keys.
  - unfold keys. rewrite map_app. simpl. apply NoDup_app; [exact N|repeat constructor; intros []|].
    intros x Hx [E|[]]. subst x.
    assert (H' : JSMap.has k m = true) by (apply has_In; exact Hx). congruence.
Qed.

Lemma rebuild_nodup {V} (m : @JSMap.t V) : NoDup (keys (JSMap.rebuild m)).
Proof.
  unfold JSMap.rebuild.
  assert (G : forall a : @JSMap.t V, NoDup (keys a) ->
    NoDup (keys (fold_left (fun acc e => JSMap.set (fst e) (snd e) acc) m a))).
  { induction m as [|e m IH]; intros a N; simpl; [exact N|]. apply IH. now apply set_nodup. }
  apply G. constructor.
Qed.

(** [rebuild] of entries with distinct keys gives them back unchanged. *)
Lemma rebuild_distinct {V} (m : @JSMap.t V) : NoDup (keys m) -> JSMap.rebuild m = m.
Proof.
  unfold JSMap.rebuild.
  assert (G : forall a : @JSMap.t V, NoDup (keys (a ++ m)) ->
    fold_left (fun acc e => JSMap.set (fst e) (snd e) acc) m a = a ++ m).
  { induction m as [|[k v] m IH]; intros a N; simpl; [now rewrite app_nil_r|].
    unfold keys in N. rewrite map_app in N. simpl in N.
    pose proof N as N0. apply NoDup_remove in N0 as [_ Nk].
    unfold JSMap.set. replace (JSMap.has k a) with false.
    - rewrite IH; [now rewrite <- app_assoc|]. unfold keys. rewrite <- app_assoc, map_app. exact N.
    - symmetry. destruct (JSMap.has k a) eqn:H; [|reflexivity].
      apply has_In in H. exfalso. apply Nk. apply in_or_app. now left. }
  intros N. apply (G []). exact N.
Qed.

Lemma skipn_keys {V} (n : nat) (m : @JSMap.t V) : keys (skipn n m) = skipn n (keys m).
Proof. unfold keys. revert m; induction n; intros [|e m]; simpl; auto. Qed.

Lemma getDistance_nodup {V} (compute : num -> num -> num -> num -> V) (c : @JSMap.t V) a b x y :
  NoDup (keys c) -> NoDup (keys (snd (getDistance_with compute c a b x y))).
Proof.
  intros N. unfold getDistance_with.
  destruct (JSMap.get (getCacheKey a b x y) c); simpl; [exact N|].
  apply set_nodup. destruct (maxCacheSize <? JSMap.size c)%nat; [apply rebuild_nodup|exact N].
Qed.

(** Asking again for the same four coordinates right after a call returns
    the same distance and leaves the cache as it is: what [getDistance]
    stores under a key is what it returns for it next. *)
Theorem getDistance_repeat (c : cache) (a b x y : num) :
  getDistance (snd (getDistance c a b x y)) a b x y = getDistance c a b x y.
Proof.
  unfold getDistance, getDistance_with.
  destruct (JSMap.get (getCacheKey a b x y) c) as [v|] eqn:G; simpl; [now rewrite G|].
  now rewrite get_set.
Qed.

(** Eviction: a call that misses on a cache holding more than 1000
    entries with distinct keys leaves the 500 most recently inserted
    entries, in their order, followed by the new key with its distance
    (501 entries in all). *)
Theorem getDistance_evicts_oldest (c : cache) (a b x y : num) :
  NoDup (keys c) -> (1000 < length c)%nat -> JSMap.get (getCacheKey a b x y) c = None ->
  snd (getDistance c a b x y) = skipn (length c - 500) c ++ [(getCacheKey a b x y, hav_num a b x y)] /\
  length (snd (getDistance c a b x y)) = 501%nat.
Proof.
  intros N L G. unfold getDistance, getDistance_with. rewrite G.
  assert (Lt : (maxCacheSize <? JSMap.size c)%nat = true)
    by (apply Nat.ltb_lt; unfold maxCacheSize, JSMap.size; lia).
  rewrite Lt. simpl. unfold JSMap.slice_neg.
  replace (maxCacheSize / 2)%nat with 500%nat by reflexivity.
  assert (Ns : NoDup (keys (skipn (length c - 500) c))).
  { rewrite skipn_keys. rewrite <- (firstn_skipn (length c - 500) (keys c)) in N.
    now apply NoDup_app_remove_l in N. }
  rewrite (rebuild_distinct _ Ns).
  assert (H : JSMap.has (getCacheKey a b x y) (skipn (length c - 500) c) = false).
  { apply get_none_has in G. destruct (JSMap.has _ (skipn _ c)) eqn:H; [|reflexivity].
    apply has_In in H. rewrite skipn_keys in H.
    assert (H1 : In (getCacheKey a b x y) (keys c)).
    { rewrite <- (firstn_skipn (length c - 500) (keys c)). apply in_or_app. now right. }
    apply has_In in H1. congruence. }
  unfold JSMap.set. rewrite H. split; [reflexivity|].
  rewrite length_app, length_skipn. simpl. lia.
Qed.

End CacheMoreProps.

Module DistanceProps.
Import MapView.




End DistanceProps.

Module ParseIntProps.
Import Route Decimal.

Lemma digit_cases (c : ascii) :
  is_digit c = true -> In c ["0"; "1"; "2"; "3"; "4"; "5"; "6"; "7"; "8"; "9"]%char.
Proof.
  destruct c as [[] [] [] [] [] [] [] []]; vm_compute; intros H;
    first [discriminate H | tauto].
Qed.

Lemma digit_value_lt (c : ascii) : is_digit c = true -> (digit_value c < 10)%Z.
Proof. intros H. apply digit_cases in H. simpl in H. intuition (subst; reflexivity). Qed.

Lemma parse_digits_app (d r : string) (a : Z) :
  all_digits d = true ->
  parse_digits 10 (d ++ r) (Some a) = parse_digits 10 r (Some (decimal_acc d a)).
Proof.
  revert a. induction d as [|c d IH]; intros a H; simpl; [reflexivity|].
  apply andb_true_iff in H as [Hc Hd].
  rewrite (proj2 (Z.ltb_lt _ _) (digit_value_lt c Hc)). now apply IH.
Qed.

Lemma parse_digits_end (r : string) (v : Z) :
  ends_number r = true -> parse_digits 10 r (Some v) = Some v.
Proof.
  destruct r as [|c r]; simpl; [reflexivity|].
  intros H. apply andb_true_iff in H as [H _]. apply andb_true_iff in H as [H _].
  apply Z.leb_le in H. replace (digit_value c <? 10)%Z with false by (symmetry; apply Z.ltb_ge; lia).
  reflexivity.
Qed.

Lemma no_x_prefix (d r : string) :
  all_digits d = true -> ends_number r = true ->
  String.prefix "x" (d ++ r) = false /\ String.prefix "X" (d ++ r) = false.
Proof.
  intros Hd Hr. destruct d as [|c d].
  - destruct r as [|c r]; [split; reflexivity|]. simpl in Hr.
    apply andb_true_iff in Hr as [Hr HX]. apply andb_true_iff in Hr as [_ Hx].
    apply negb_true_iff in Hx, HX. clear Hd.
    destruct c as [[] [] [] [] [] [] [] []]; vm_compute in Hx, HX;
      first [discriminate | split; reflexivity].
  - simpl in Hd. apply andb_true_iff in Hd as [Hc _]. apply digit_cases in Hc.
    simpl in Hc. intuition (subst; split; reflexivity).
Qed.

Lemma append_empty (s : string) : (s ++ "")%string = s.
Proof. induction s as [|c s IH]; simpl; [reflexivity|now rewrite IH]. Qed.

Lemma apply_sign_1 (m : Z) : apply_sign 1 (to_double m) = to_double m.
Proof.
  unfold to_double. destruct (m <? 2 ^ 53); [destruct m; reflexivity|].
  cbv zeta. destruct (2 ^ 1024 <=? _); [reflexivity|].
  unfold apply_sign. now rewrite Z.mul_1_l.
Qed.

Lemma parseInt_digits (d r : string) :
  d <> ""%string -> all_digits d = true -> ends_number r = true ->
  parseInt (d ++ r) = Some (to_double (decimal_value d)).
Proof.
  intros Hne Hd Hr. destruct d as [|c d]; [contradiction|].
  simpl in Hd. apply andb_true_iff in Hd as [Hc Hd].
  pose proof (no_x_prefix d r Hd Hr) as [X1 X2].
  pose proof (parse_digits_app d r (digit_value c) Hd) as P.
  rewrite (parse_digits_end r _ Hr) in P.
  unfold decimal_value. simpl decimal_acc.
  apply digit_cases in Hc. simpl in Hc.
  intuition (subst; unfold parseInt, trim_left; simpl; rewrite ?X1, ?X2; simpl;
             simpl in P; rewrite P, apply_sign_1; reflexivity).
Qed.

(** [parseInt] reads an id by its leading decimal digits: for a non-empty
    digit string [d] followed by anything that does not continue the
    number, the id read from [d ++ r] is the one read from [d], the
    double nearest to [d]'s value (that value itself below 2^53), and
    both PATCH handlers act on /api/stations/[d ++ r] exactly as on
    /api/stations/[d] (so '12abc' updates station 12). *)
Theorem patch_id_leading_digits (d r : string) :
  d <> ""%string -> all_digits d = true -> ends_number r = true ->
  parseInt (d ++ r) = parseInt d /\
  parseInt d = Some (to_double (decimal_value d)) /\
  ((decimal_value d < 2 ^ 53)%Z -> parseInt d = Some (Fin (decimal_value d))) /\
  (forall now body, patch_prisma now (d ++ r) body = patch_prisma now d body) /\
  (forall body, patch_supabase (d ++ r) body = patch_supabase d body).
Proof.
  intros Hne Hd Hr.
  assert (P1 : parseInt (d ++ r) = Some (to_double (decimal_value d))) by now apply parseInt_digits.
  assert (P2 : parseInt d = Some (to_double (decimal_value d))).
  { rewrite <- (append_empty d) at 1. now apply parseInt_digits. }
  split; [congruence|]. split; [exact P2|]. split.
  { intros L. rewrite P2. unfold to_double. now rewrite (proj2 (Z.ltb_lt _ _) L). }
  split.
  - intros now body. unfold patch_prisma. now rewrite P1, P2.
  - intros body. unfold patch_supabase. now rewrite P1, P2.
Qed.

End ParseIntProps.

Module ToggleProps.
Import Route UpdateFlow MapView.

Lemma newStatus_cases (s : station) :
  newStatus s = INSPECTED \/ newStatus s = NOT_INSPECTED.
Proof. unfold newStatus. destruct (inspection68 s) as [w|]; [destruct (String.eqb w INSPECTED)|]; auto. Qed.

(** The inspection button of the map popup, end to end: the body sent is
    the single key [inspection68] with the new status; the Prisma PATCH
    turns it into [inspection_68] plus [date_inspected] (today's date
    exactly when the new status is inspected); the optimistic state shows
    the new status, which always differs from the old one; and a row read
    back with that stored value keeps the same status after
    reconciliation. *)
Theorem inspection_toggle_round_trip (s : station) (now : string) (row : serverRow) :
  r_inspection_68_truthy row = String.eqb (newStatus s) INSPECTED ->
  apiUpdates (toggle_update s) = [("inspection68", JStr (newStatus s))] /\
  (forall sid : string,
     patch_prisma now sid (Some (JObj (apiUpdates (toggle_update s)))) =
     match parseInt sid with
     | None => Respond 400 "Invalid station ID"
     | Some n =>
         Update n [("inspection_68", JBool (String.eqb (newStatus s) INSPECTED));
                   ("date_inspected",
                    if String.eqb (newStatus s) INSPECTED then JStr (before_T now) else JNull)]
     end) /\
  inspection68 (spread s (toggle_update s)) = Some (newStatus s) /\
  inspection68 (spread s (toggle_update s)) <> inspection68 s /\
  inspection68 (reconcile row (spread s (toggle_update s))) = Some (newStatus s).
Proof.
  intros Hrow. split; [reflexivity|]. split.
  { intros sid. unfold patch_prisma. destruct (parseInt sid); reflexivity. }
  split; [reflexivity|]. split.
  - simpl. unfold newStatus.
    destruct (inspection68 s) as [w|]; [|discriminate].
    destruct (String.eqb w INSPECTED) eqn:E.
    + apply String.eqb_eq in E. subst w. discriminate.
    + intros H. injection H as H. rewrite <- H in E. discriminate E.
  - simpl. rewrite Hrow.
    destruct (newStatus_cases s) as [-> | ->]; reflexivity.
Qed.

End ToggleProps.

Module UpdateFlowMoreProps.
Import Route UpdateFlow.

Lemma set_both_keeps (sid : station_id) (f : station -> station) (st : ui) :
  (forall s, id (f s) = id s) ->
  map id (stations (set_both sid f st)) = map id (stations st) /\
  (forall n s, nth_error (stations st) n = Some s -> id_eqb (id s) sid = false ->
     nth_error (stations (set_both sid f st)) n = Some s) /\
  (forall q, selected st = Some q -> id_eqb (id q) sid = false ->
     selected (set_both sid f st) = Some q) /\
  (selected st = None -> selected (set_both sid f st) = None).
Proof.
  intros Hf. destruct st as [l p]. simpl. unfold map_stations, map_selected.
  split; [|split; [|split]].
  - rewrite map_map. apply map_ext. intros s.
    destruct (id_eqb (id s) sid); auto.
  - intros n s Hn Hs. rewrite nth_error_map, Hn. simpl. now rewrite Hs.
  - intros q -> Hq. now rewrite Hq.
  - intros ->. reflexivity.
Qed.

(** The station update never touches another station: the optimistic
    update of [handleUpdateStation] and the reconciliation when the
    request settles keep the list's length, order and ids, leave every
    station with another id at its position unchanged, and leave a
    selection with another id (or no selection) as it was. *)
Theorem update_keeps_other_stations (closure : list station) (st : ui)
    (sid : station_id) (u : partial) (resp : response) :
  (let st' := fst (handleUpdateStation closure st sid u) in
   map id (stations st') = map id (stations st) /\
   (forall n s, nth_error (stations st) n = Some s -> id_eqb (id s) sid = false ->
      nth_error (stations st') n = Some s) /\
   (forall q, selected st = Some q -> id_eqb (id q) sid = false -> selected st' = Some q) /\
   (selected st = None -> selected st' = None)) /\
  (let st' := on_response sid resp st in
   map id (stations st') = map id (stations st) /\
   (forall n s, nth_error (stations st) n = Some s -> id_eqb (id s) sid = false ->
      nth_error (stations st') n = Some s) /\
   (forall q, selected st = Some q -> id_eqb (id q) sid = false -> selected st' = Some q) /\
   (selected st = None -> selected st' = None)).
Proof.
  split; cbv zeta.
  - unfold handleUpdateStation. destruct (find _ closure); simpl.
    + apply set_both_keeps. reflexivity.
    + repeat split; auto.
  - unfold on_response. destruct resp; try (repeat split; auto; fail).
    apply set_both_keeps. reflexivity.
Qed.

End UpdateFlowMoreProps.

Module TrimProps.
Import Route Unicode.

Lemma strip_bytes_length (p : list nat) (s r : string) :
  strip_bytes p s = Some r -> (String.length r + length p = String.length s)%nat.
Proof.
  revert s. induction p as [|b p IH]; intros s H; simpl in H.
  - injection H as <-. simpl. lia.
  - destruct s as [|c s]; [discriminate|].
    destruct (nat_of_ascii c =? b)%nat; [|discriminate].
    apply IH in H. simpl. lia.
Qed.

Lemma first_strip_shorter (ps : list (list nat)) (s r : string) :
  (forall p, In p ps -> p <> []) ->
  first_strip ps s = Some r -> (String.length r < String.length s)%nat.
Proof.
  induction ps as [|p ps IH]; intros NE H; simpl in H; [discriminate|].
  destruct (strip_bytes p s) as [r'|] eqn:E.
  - injection H as <-. apply strip_bytes_length in E.
    destruct p; [exfalso; apply (NE []); [simpl; now left | reflexivity]|]. simpl in E. lia.
  - apply IH; [intros q Hq; apply NE; now right | exact H].
Qed.

Lemma space_rest_shorter (s r : string) :
  space_rest s = Some r -> (String.length r < String.length s)%nat.
Proof.
  destruct s as [|c s']; unfold space_rest; [discriminate|].
  destruct (is_space c).
  - intros H. injection H as <-. simpl. lia.
  - apply first_strip_shorter.
    intros p Hp. unfold wide_spaces in Hp. simpl in Hp.
    intuition (subst; discriminate).
Qed.

Lemma trim_fuel_enough (n m : nat) (s : string) :
  (String.length s <= n)%nat -> (String.length s <= m)%nat -> trim_fuel n s = trim_fuel m s.
Proof.
  revert m s. induction n as [|n IH]; intros m s Hn Hm.
  - destruct s; [|simpl in Hn; lia]. destruct m; reflexivity.
  - destruct m as [|m].
    + destruct s; [reflexivity|simpl in Hm; lia].
    + simpl. destruct (space_rest s) as [r|] eqn:E; [|reflexivity].
      apply space_rest_shorter in E. apply IH; lia.
Qed.

Lemma trim_left_space (t s : string) :
  space_rest t = Some s -> trim_left t = trim_left s.
Proof.
  intros H. pose proof (space_rest_shorter _ _ H) as L.
  destruct t as [|c t']; [discriminate|].
  unfold trim_left at 1.
  change (match space_rest (String c t') with
          | Some r => trim_fuel (String.length t') r
          | None => String c t' end = trim_left s).
  rewrite H.
  apply trim_fuel_enough; simpl in L; lia.
Qed.

(** Both PATCH handlers skip the white space JavaScript trims before an
    id: an id preceded by a space, tab, line break, no-break space, an
    ideographic space, a byte-order mark or any other WhiteSpace or
    LineTerminator code point is read as the id itself, and the request is
    answered as for the id alone. *)
Theorem patch_id_leading_space (cp : Z) (id : string) :
  In cp js_whitespace ->
  parseInt (utf8 cp ++ id) = parseInt id /\
  (forall now body, patch_prisma now (utf8 cp ++ id) body = patch_prisma now id body) /\
  (forall body, patch_supabase (utf8 cp ++ id) body = patch_supabase id body).
Proof.
  intros Hcp.
  assert (R : space_rest (utf8 cp ++ id) = Some id).
  { unfold js_whitespace in Hcp. simpl in Hcp.
    intuition (subst; reflexivity). }
  assert (P : parseInt (utf8 cp ++ id) = parseInt id).
  { unfold parseInt. now rewrite (trim_left_space _ _ R). }
  split; [exact P|]. split.
  - intros now body. unfold patch_prisma. now rewrite P.
  - intros body. unfold patch_supabase. now rewrite P.
Qed.

End TrimProps.

Module ExtraWitnesses.
Import Route UpdateFlow MapView Decimal.

(** Province ["p"] over stations 1 and 2, both in city ["c"]. *)
Lemma city_options_witness :
  "p" <> ""%string /\
  NoDup (CityFilter.useOptimizedCityFilter [station_onAir_unset; station_two] (Some "p") []) /\
  Filters.filteredStations
    {| f_onAir := None; f_city := Some "c"; f_province := Some "p";
       f_inspection := None; f_search := None; f_submitRequest := None |}
    [station_onAir_unset; station_two] <> [].
Proof.
  assert (Hq : "p" <> ""%string) by discriminate.
  destruct (CityFilterProps.city_options [station_onAir_unset; station_two] "p" [] Hq)
    as [N [I F]].
  split; [exact Hq|]. split; [exact N|].
  apply F, I. exists station_onAir_unset. split; [left; reflexivity | split; reflexivity].
Defined.

(** A full cache of 1001 entries and a new pair of points. *)
Lemma getDistance_evicts_oldest_witness :
  NoDup (CacheKeys.keys cache_1001) /\ (1000 < length cache_1001)%nat /\
  JSMap.get (DistanceCache.getCacheKey zero zero (mkNum 5 (-1)) zero) cache_1001 = None /\
  length (snd (DistanceCache.getDistance cache_1001 zero zero (mkNum 5 (-1)) zero)) = 501%nat.
Proof.
  assert (N : NoDup (CacheKeys.keys cache_1001)).
  { assert (E : nodup string_dec (CacheKeys.keys cache_1001) = CacheKeys.keys cache_1001)
      by (vm_compute; reflexivity).
    rewrite <- E. apply NoDup_nodup. }
  assert (L : (1000 < length cache_1001)%nat) by (vm_compute; lia).
  assert (G : JSMap.get (DistanceCache.getCacheKey zero zero (mkNum 5 (-1)) zero) cache_1001 = None)
    by (vm_compute; reflexivity).
  split; [exact N|]. split; [exact L|]. split; [exact G|].
  exact (proj2 (CacheMoreProps.getDistance_evicts_oldest cache_1001 zero zero (mkNum 5 (-1)) zero N L G)).
Defined.

(** The id ["12abc"]. *)
Lemma patch_id_leading_digits_witness :
  parseInt ("12" ++ "abc") = Some (Fin 12).
Proof.
  assert (H1 : "12"%string <> ""%string) by discriminate.
  assert (H2 : all_digits "12" = true) by reflexivity.
  assert (H3 : ends_number "abc" = true) by reflexivity.
  destruct (ParseIntProps.patch_id_leading_digits "12" "abc" H1 H2 H3) as [E [_ [F _]]].
  rewrite E. apply F. reflexivity.
Defined.

(** A no-break space before the id ["12"]. *)
Lemma patch_id_leading_space_witness :
  In 160 Unicode.js_whitespace /\ parseInt (Unicode.utf8 160 ++ "12") = Some (Fin 12).
Proof.
  assert (H : In 160 Unicode.js_whitespace) by (simpl; tauto).
  split; [exact H|].
  rewrite (proj1 (TrimProps.patch_id_leading_space 160 "12" H)). vm_compute. reflexivity.
Defined.

(** Station 1, inspected, is toggled; the row read back is not inspected. *)
Lemma inspection_toggle_round_trip_witness :
  r_inspection_68_truthy row_not_inspected = String.eqb (newStatus station_onAir_unset) INSPECTED /\
  inspection68 (reconcile row_not_inspected (spread station_onAir_unset (toggle_update station_onAir_unset)))
  = Some NOT_INSPECTED.
Proof.
  assert (H : r_inspection_68_truthy row_not_inspected =
              String.eqb (newStatus station_onAir_unset) INSPECTED) by reflexivity.
  split; [exact H|].
  exact (proj2 (proj2 (proj2 (proj2 (ToggleProps.inspection_toggle_round_trip
                                       station_onAir_unset "2026-10-19T00:00:00Z" row_not_inspected H))))).
Defined.

End ExtraWitnesses.
